(** * A shallow embedding of the TTvfs virtual disk (VirtualFileSystem.cpp)

    The in-memory state of an opened volume ([sb], [directory], [FAT]) and
    the persisted regions of the backing file are modelled as one record.
    The directory and FAT regions are kept decoded (as the list of entries
    the next [readDirectory] / [readFAT] returns); the data region is a
    function from block index to the 512 bytes stored there.

    C++ undefined behaviour (a [std::vector] read or write out of range) and
    a loop that never ends are both results [None] of the [option] monad
    used below; a returned [bool] is the C++ function's return value. *)

From Stdlib Require Import ZArith List String Ascii Bool Lia.
From Stdlib Require Import Sorting.Sorted.
Import ListNotations.

Open Scope string_scope.
Open Scope Z_scope.

Module VFS.

Notation "x <- m ;; k" :=
  (match m with Some x => k | None => None end)
  (at level 61, m at next level, right associativity).

(** ** Constants (VirtualFileSystem.h, VirtualFileSystem.cpp) *)

Definition MAX_FILES : Z := 64.
Definition BLOCK_SIZE : Z := 512.
Definition DEFAULT_DISK_SIZE : Z := 10 * 1024 * 1024.

(** [static constexpr char FS_NAME[8] = "TTvfs01";] : seven characters and
    the terminating NUL. *)
Definition FS_NAME : list ascii :=
  ["T"; "T"; "v"; "f"; "s"; "0"; "1"; "000"]%char.

Definition FAT_FREE : Z := 0.
Definition FAT_EOF : Z := -1.
Definition FAT_RESERVED : Z := -2.

(** [sizeof(DirEntry)]: 32 + 8 + 8 + 1 + 4 bytes, padded to 56 by the
    alignment of [firstBlock] (the [#pragma pack(push, 1] before the struct
    lacks its closing parenthesis).  Both 53 and 56 give
    [dirBlockCount = 7]. *)
Definition sizeof_DirEntry : Z := 56.
Definition sizeof_int32 : Z := 4.

Definition u32 (z : Z) : Z := z mod 2 ^ 32.
Definition u64 (z : Z) : Z := z mod 2 ^ 64.
(** [int32_t blk = entry.firstBlock;] : uint32 to int32. *)
Definition to_int32 (z : Z) : Z :=
  let w := u32 z in if w <? 2 ^ 31 then w else w - 2 ^ 32.

(** ** Data model *)

Record SuperBlock := mkSuperBlock {
  fsName : list ascii;          (* char[8] *)
  blockSize : Z;
  totalBlocks : Z;
  totalDirEntries : Z;
  dirStartBlock : Z;
  dirBlockCount : Z;
  fatStartBlock : Z;
  fatBlockCount : Z;
  dataStartBlock : Z
}.

(** A directory entry; [name] is the C string held in [char name[32]]
    (the bytes up to the first NUL), the only part of the array the code
    ever reads. *)
Record DirEntry := mkDirEntry {
  name : string;
  size : Z;                     (* uint64_t *)
  created : Z;                  (* time_t *)
  type : ascii;
  firstBlock : Z                (* uint32_t *)
}.

Definition zero_entry : DirEntry := mkDirEntry "" 0 0 "000"%char 0.

Definition zero_block : list Byte.byte := repeat Byte.x00 (Z.to_nat BLOCK_SIZE).

(** The persisted directory, FAT and blocks are kept as three stores.  The
    code writes all three into the one disk file at offsets taken from the
    superblock ([writeDirectory] always writes 3584 bytes from
    [dirStartBlock]), so the stores describe the file only on a geometry
    that keeps these parts apart, such as the one [createDisk] writes. *)
Record VFS := mkVFS {
  sb : SuperBlock;
  directory : list DirEntry;    (* in memory *)
  FAT : list Z;                 (* in memory *)
  dirRegion : list DirEntry;    (* persisted directory region *)
  fatRegion : list Z;           (* persisted FAT region *)
  dataBlocks : Z -> list Byte.byte  (* contents of each block of the file *)
}.

(** A host file as [ifstream] sees it: its size ([tellg] after opening at
    the end) and the byte at each offset. *)
Record HostFile := mkHostFile {
  hsize : Z;
  hbyte : Z -> Byte.byte
}.

Definition host_of_list (l : list Byte.byte) : HostFile :=
  mkHostFile (Z.of_nat (List.length l)) (fun k => nth (Z.to_nat k) l Byte.x00).

(** ** [std::vector] access; out of range is undefined behaviour *)

Definition vget {A} (v : list A) (i : Z) : option A :=
  if i <? 0 then None else nth_error v (Z.to_nat i).

Fixpoint set_nth {A} (v : list A) (n : nat) (x : A) : option (list A) :=
  match v, n with
  | [], _ => None
  | _ :: v', O => Some (x :: v')
  | y :: v', S n' => r <- set_nth v' n' x ;; Some (y :: r)
  end.

Definition vset {A} (v : list A) (i : Z) (x : A) : option (list A) :=
  if i <? 0 then None else set_nth v (Z.to_nat i) x.


(** ** [createDisk] *)

(** The size adjustment at the top of [createDisk] (uint32 arithmetic). *)
Definition adjust_disk_size (diskSize : Z) : Z :=
  let d := if diskSize =? 0 then DEFAULT_DISK_SIZE else diskSize in
  if negb (d mod BLOCK_SIZE =? 0) then u32 ((d / BLOCK_SIZE + 1) * BLOCK_SIZE)
  else d.

Definition format_superblock (diskSize : Z) : SuperBlock :=
  let totalBlocks := diskSize / BLOCK_SIZE in
  let dirStart := 1 in
  let dirBytes := MAX_FILES * sizeof_DirEntry in
  let dirBlocks := (dirBytes + BLOCK_SIZE - 1) / BLOCK_SIZE in
  let fatStart := u32 (dirStart + dirBlocks) in
  let fatBytes := u32 (totalBlocks * sizeof_int32) in
  let fatBlocks := u32 (fatBytes + BLOCK_SIZE - 1) / BLOCK_SIZE in
  mkSuperBlock FS_NAME BLOCK_SIZE totalBlocks MAX_FILES
    dirStart dirBlocks fatStart fatBlocks (u32 (fatStart + fatBlocks)).

(** [for (i = start; i < start + n; i++) FAT[i] = FAT_RESERVED;] *)
Fixpoint reserve_loop (fat : list Z) (i : nat) (n : nat) : option (list Z) :=
  match n with
  | O => Some fat
  | S n' => fat' <- set_nth fat i FAT_RESERVED ;; reserve_loop fat' (S i) n'
  end.

(** A freshly formatted volume: the state [createDisk] leaves on disk (and
    that the next [loadDisk] reads back).  The backing file is created
    sparse, so every block not written holds zeros. *)
Definition createDisk (diskSize : Z) : option VFS :=
  let d := adjust_disk_size diskSize in
  let s := format_superblock d in
  let dir := repeat zero_entry (Z.to_nat MAX_FILES) in
  fat <- reserve_loop (repeat FAT_FREE (Z.to_nat (totalBlocks s))) O
                      (Z.to_nat (dataStartBlock s)) ;;
  Some (mkVFS s dir fat dir fat (fun _ => zero_block)).

(** ** [readSuperblock] and [loadDisk] *)

Definition NUL : ascii := "000"%char.

(** [strncmp] on two char arrays (a missing byte reads as NUL); the sign
    of the result is that of the difference of the first differing
    [unsigned char]s. *)
Fixpoint strncmp (a b : list ascii) (n : nat) : Z :=
  match n with
  | O => 0
  | S n' =>
      let ca := hd NUL a in
      let cb := hd NUL b in
      if Ascii.eqb ca cb then
        (if Ascii.eqb ca NUL then 0 else strncmp (tl a) (tl b) n')
      else Z.of_nat (nat_of_ascii ca) - Z.of_nat (nat_of_ascii cb)
  end.

Fixpoint strlen (a : list ascii) : nat :=
  match a with
  | [] => O
  | c :: a' => if Ascii.eqb c NUL then O else S (strlen a')
  end.

(** [readSuperblock]: the check on the magic read from block 0. *)
Definition readSuperblock (b : SuperBlock) : bool :=
  strncmp (fsName b) FS_NAME (strlen FS_NAME) =? 0.

Inductive LoadResult :=
| LoadOpenError
| LoadCorrupt
| Loaded (v : VFS).

(** [loadDisk]: [opened] is whether [disk.open] succeeded; [img] is the
    content of the backing file. *)
Definition loadDisk (opened : bool) (img : VFS) : LoadResult :=
  if negb opened then LoadOpenError
  else if negb (readSuperblock (sb img)) then LoadCorrupt
  else Loaded (mkVFS (sb img) (dirRegion img) (fatRegion img)
                     (dirRegion img) (fatRegion img) (dataBlocks img)).

(** ** Directory and FAT helpers *)

Fixpoint findDirectoryEntry_from (dir : list DirEntry) (i : Z) (nm : string) : Z :=
  match dir with
  | [] => -1
  | e :: dir' =>
      if negb (String.eqb (name e) "") && String.eqb nm (name e) then i
      else findDirectoryEntry_from dir' (i + 1) nm
  end.

(** [findDirectoryEntry]: index of the first active entry named [nm], or -1. *)
Definition findDirectoryEntry (dir : list DirEntry) (nm : string) : Z :=
  findDirectoryEntry_from dir 0 nm.

(** The free-slot scan of [copyFromHost] ([directory] always has
    [MAX_FILES] entries). *)
Fixpoint findFreeSlot_from (dir : list DirEntry) (i : Z) : Z :=
  match dir with
  | [] => -1
  | e :: dir' => if String.eqb (name e) "" then i else findFreeSlot_from dir' (i + 1)
  end.

Definition findFreeSlot (dir : list DirEntry) : Z := findFreeSlot_from dir 0.

(** The loop of [findFreeBlocks]: [n] bounds [i < sb.totalBlocks]; the
    uint32 index [i] is stored into the [vector<int32_t>] by [push_back]. *)
Fixpoint findFreeBlocks_loop (fat : list Z) (count : Z) (i : Z) (n : nat)
    (blocks : list Z) : option (list Z) :=
  match n with
  | O => Some blocks
  | S n' =>
      if Z.of_nat (List.length blocks) <? count then
        v <- vget fat i ;;
        findFreeBlocks_loop fat count (i + 1) n'
          (if v =? FAT_FREE then (blocks ++ [to_int32 i])%list else blocks)
      else Some blocks
  end.

Definition findFreeBlocks (b : SuperBlock) (fat : list Z) (count : Z)
    : option (bool * list Z) :=
  blocks <- findFreeBlocks_loop fat count (dataStartBlock b)
              (Z.to_nat (totalBlocks b - dataStartBlock b)) [] ;;
  Some (Z.of_nat (List.length blocks) =? count, blocks).

(** The FAT update of [copyFromHost]: each block points to the next one,
    the last one is [FAT_EOF]. *)
Fixpoint link_chain (fat : list Z) (blocks : list Z) : option (list Z) :=
  match blocks with
  | [] => Some fat
  | [b] => vset fat b FAT_EOF
  | b :: ((b' :: _) as rest) => fat' <- vset fat b b' ;; link_chain fat' rest
  end.

(** ** [copyFromHost] *)

Definition is_sep (c : ascii) : bool :=
  Ascii.eqb c "/"%char || Ascii.eqb c "\"%char.

Fixpoint has_sep (s : string) : bool :=
  match s with
  | EmptyString => false
  | String c r => is_sep c || has_sep r
  end.

(** [pos = hostFile.find_last_of("/\\")]; the part after [pos], or the
    whole string when there is no separator. *)
Fixpoint basename (s : string) : string :=
  match s with
  | EmptyString => EmptyString
  | String c r => if has_sep r then basename r else if is_sep c then r else s
  end.

(** Block [i] of the host file as written to the disk: [bytesToRead] bytes
    read from the stream, then zero padding up to [BLOCK_SIZE]. *)
Definition block_bytes (h : HostFile) (i : Z) : list Byte.byte :=
  let bytesToRead := Z.min BLOCK_SIZE (hsize h - i * BLOCK_SIZE) in
  (map (fun j => hbyte h (i * BLOCK_SIZE + Z.of_nat j)) (seq 0 (Z.to_nat bytesToRead))
   ++ repeat Byte.x00 (Z.to_nat (BLOCK_SIZE - bytesToRead)))%list.

Fixpoint write_data (h : HostFile) (blocks : list Z) (i : Z)
    (data : Z -> list Byte.byte) : Z -> list Byte.byte :=
  match blocks with
  | [] => data
  | b :: bs => write_data h bs (i + 1)
                 (fun k => if k =? b then block_bytes h i else data k)
  end.

(** [copyFromHost hostFile]: [hf] is the host file [hostFile] names
    ([None] when it cannot be opened) and [now] is [time(nullptr)]. *)
Definition copyFromHost (hostFile : string) (hf : option HostFile) (now : Z)
    (s : VFS) : option (bool * VFS) :=
  let fname := basename hostFile in
  if 0 <=? findDirectoryEntry (directory s) fname then Some (false, s) else
  let freeSlot := findFreeSlot (directory s) in
  if freeSlot <? 0 then Some (false, s) else
  match hf with
  | None => Some (false, s)
  | Some h =>
    let fileSize := hsize h in
    if fileSize <=? 0 then Some (false, s) else
    let blocksNeeded := u32 ((fileSize + BLOCK_SIZE - 1) / BLOCK_SIZE) in
    r <- findFreeBlocks (sb s) (FAT s) blocksNeeded ;;
    let (found, blocks) := r in
    if negb found then Some (false, s) else
    first <- nth_error blocks 0 ;;
    let entry := mkDirEntry (substring 0 31 fname) (u64 fileSize) now "F"%char
                            (u32 first) in
    dir' <- vset (directory s) freeSlot entry ;;
    fat' <- link_chain (FAT s) blocks ;;
    let data' := write_data h blocks 0 (dataBlocks s) in
    Some (true, mkVFS (sb s) dir' fat' dir' fat' data')
  end.

(** ** [copyToHost] *)

(** How the export loop ends: the loop condition became false (with the
    bytes written to the host file and the number of iterations), a read
    [FAT[blk]] out of range (undefined behaviour, after the given number of
    iterations), or the model's iteration budget ran out. *)
Inductive ExportLoop :=
| LoopDone (out : list Byte.byte) (iters : nat)
| LoopUndefined (iters : nat)
| LoopOutOfFuel.

(** The [while] loop of [copyToHost]; [readBlock blk] is the content of
    block [blk] of the disk (for a block outside the file the C++ read
    fails and the stale buffer is written; those bytes are not modelled). *)
Fixpoint copyToHost_loop (fuel : nat) (fat : list Z)
    (readBlock : Z -> list Byte.byte) (blk remaining : Z)
    (out : list Byte.byte) (iters : nat) : ExportLoop :=
  if negb (blk =? FAT_EOF) && (0 <? remaining) then
    match fuel with
    | O => LoopOutOfFuel
    | S fuel' =>
        let toRead := Z.min BLOCK_SIZE remaining in
        let out' := (out ++ firstn (Z.to_nat toRead) (readBlock blk))%list in
        let remaining' := remaining - toRead in
        if blk <? 0 then
          copyToHost_loop fuel' fat readBlock FAT_EOF remaining' out' (S iters)
        else
          match vget fat blk with
          | Some next =>
              copyToHost_loop fuel' fat readBlock next remaining' out' (S iters)
          | None => LoopUndefined (S iters)
          end
    end
  else LoopDone out iters.

(** [ceil(size / BLOCK_SIZE)]. *)
Definition blocks_for (sz : Z) : Z := (sz + BLOCK_SIZE - 1) / BLOCK_SIZE.

(** [copyToHost fileName destPath]: the result is the return value and the
    bytes written to the host file (the host file is assumed creatable). *)
Definition copyToHost (fileName : string) (s : VFS) : option (bool * list Byte.byte) :=
  let idx := findDirectoryEntry (directory s) fileName in
  if idx <? 0 then Some (false, []) else
  entry <- vget (directory s) idx ;;
  match copyToHost_loop (Z.to_nat (blocks_for (size entry))) (FAT s) (dataBlocks s)
          (to_int32 (firstBlock entry)) (size entry) [] O with
  | LoopDone out _ => Some (true, out)
  | _ => None
  end.

(** ** [deleteFile] *)

(** The [while] loop of [deleteFile].  A run that ends makes at most
    [2 * length fat] iterations (an iteration at a nonzero entry zeroes it;
    one at a zero entry jumps to block 0, which must then be nonzero or the
    loop repeats forever), so [deleteFile] gives it [2 * length fat + 2]
    iterations and [None] means the loop does not end. *)
Fixpoint freeChain (fuel : nat) (fat : list Z) (blk : Z) : option (list Z) :=
  if negb (blk =? FAT_EOF) && negb (blk =? FAT_RESERVED) then
    match fuel with
    | O => None
    | S fuel' =>
        next <- vget fat blk ;;
        fat' <- vset fat blk FAT_FREE ;;
        freeChain fuel' fat' next
    end
  else Some fat.

Definition deleteFile (fileName : string) (s : VFS) : option (bool * VFS) :=
  let idx := findDirectoryEntry (directory s) fileName in
  if idx <? 0 then Some (false, s) else
  entry <- vget (directory s) idx ;;
  fat' <- freeChain (2 * List.length (FAT s) + 2) (FAT s) (to_int32 (firstBlock entry)) ;;
  let entry' := mkDirEntry "" 0 (created entry) (type entry) 0 in
  dir' <- vset (directory s) idx entry' ;;
  Some (true, mkVFS (sb s) dir' fat' dir' fat' (dataBlocks s)).

(** ** Operation sequences *)

Inductive Op :=
| OpCopyFromHost (hostFile : string) (hf : option HostFile) (now : Z)
| OpCopyToHost (fileName : string)
| OpDeleteFile (fileName : string).

(** One CLI command on the volume: [loadDisk], then the operation. *)
Definition step (s : VFS) (o : Op) : option VFS :=
  match loadDisk true s with
  | Loaded s0 =>
      match o with
      | OpCopyFromHost p hf now => r <- copyFromHost p hf now s0 ;; Some (snd r)
      | OpCopyToHost n => _ <- copyToHost n s0 ;; Some s0
      | OpDeleteFile n => r <- deleteFile n s0 ;; Some (snd r)
      end
  | _ => None
  end.

Fixpoint run (s : VFS) (ops : list Op) : option VFS :=
  match ops with
  | [] => Some s
  | o :: ops' => s' <- step s o ;; run s' ops'
  end.

(** ** [showMap] *)

(** The chain walk inside [describe_block]: does the chain from [blk]
    reach block [i]?  A walk that makes more than [length fat] reads of
    in-range entries has repeated a block and loops forever, so the budget
    [S (length fat)] makes [None] mean "does not end" (or an out-of-range
    read). *)
Fixpoint walk_hits (fuel : nat) (fat : list Z) (blk i : Z) : option bool :=
  if negb (blk =? FAT_EOF) && (0 <=? blk) then
    if blk =? i then Some true
    else
      match fuel with
      | O => None
      | S fuel' => next <- vget fat blk ;; walk_hits fuel' fat next i
      end
  else Some false.

(** The directory scan inside [describe_block]: the name of the first
    active entry (in slot order) whose chain visits block [i], or "". *)
Fixpoint find_owner (fat : list Z) (dir : list DirEntry) (i : Z) : option string :=
  match dir with
  | [] => Some ""
  | e :: dir' =>
      if String.eqb (name e) "" then find_owner fat dir' i
      else
        hit <- walk_hits (S (List.length fat)) fat (to_int32 (firstBlock e)) i ;;
        if hit then Some (name e) else find_owner fat dir' i
  end.

Definition Class := (string * string)%type.

(** The lambda [describe_block] of [showMap]; the ends of the directory
    and FAT ranges are uint32 sums. *)
Definition describe_block (s : VFS) (i : Z) : option Class :=
  let b := sb s in
  if i =? 0 then Some ("Superblock", "occupied")
  else if (dirStartBlock b <=? i) && (i <? u32 (dirStartBlock b + dirBlockCount b)) then
    Some ("Directory", "occupied")
  else if (fatStartBlock b <=? i) && (i <? u32 (fatStartBlock b + fatBlockCount b)) then
    Some ("FAT", "occupied")
  else
    v <- vget (FAT s) i ;;
    if v =? FAT_FREE then Some ("Free", "free")
    else
      fname <- find_owner (FAT s) (directory s) i ;;
      if negb (String.eqb fname "") then Some ("File(" ++ fname ++ ")", "occupied")
      else Some ("Unknown", "occupied").

(** A printed line of the map: first block, last block, (type, status). *)
Definition MapRange := (Z * Z * Class)%type.

(** The [for (i = 1; i < sb.totalBlocks; ++i)] loop ([n] iterations left)
    followed by the final group. *)
Fixpoint showMap_loop (s : VFS) (n : nat) (i start : Z) (curr : Class)
    : option (list MapRange) :=
  match n with
  | O => Some [(start, u32 (totalBlocks (sb s) - 1), curr)]
  | S n' =>
      d <- describe_block s i ;;
      if String.eqb (fst d) (fst curr) && String.eqb (snd d) (snd curr) then
        showMap_loop s n' (i + 1) start curr
      else
        rest <- showMap_loop s n' (i + 1) i d ;;
        Some ((start, i - 1, curr) :: rest)
  end.

Definition showMap (s : VFS) : option (list MapRange) :=
  c0 <- describe_block s 0 ;;
  showMap_loop s (Z.to_nat (totalBlocks (sb s) - 1)) 1 0 c0.

(** ** The [dmake] command of the CLI (main.cpp) *)

Inductive DmakeResult :=
| DmakeSizeError                    (* the size check fails: exit code 1 *)
| DmakeDone (r : option VFS).       (* the result of [createDisk size] *)

(** [sizeArg] is the value [stoul(argv[3])] returns, when the argument is
    given; it is cast to [uint32_t] before the range check. *)
Definition dmake (sizeArg : option Z) : DmakeResult :=
  match sizeArg with
  | None => DmakeDone (createDisk DEFAULT_DISK_SIZE)
  | Some n =>
      let size := u32 n in
      if (size <? 4096) || (100 * 1024 * 1024 <? size) then DmakeSizeError
      else DmakeDone (createDisk size)
  end.

End VFS.

(** * Properties *)

Module Claims.

Import VFS.

(** Splits a conjunction of computed facts into its parts (without
    [split] on the equalities themselves). *)
Ltac split_conj := repeat match goal with |- _ /\ _ => split end.

(** ** Measures of a volume named by the specification *)

(** The blocks of the chain from [blk], up to [FAT_EOF]; [None] when the
    walk reads out of range or does not reach [FAT_EOF] within [fuel]. *)
Fixpoint chain_blocks (fuel : nat) (fat : list Z) (blk : Z) : option (list Z) :=
  if blk =? FAT_EOF then Some []
  else
    match fuel with
    | O => None
    | S fuel' => next <- vget fat blk ;; rest <- chain_blocks fuel' fat next ;;
                 Some (blk :: rest)
    end.

Definition entry_chain (s : VFS) (e : DirEntry) : option (list Z) :=
  chain_blocks (S (List.length (FAT s))) (FAT s) (to_int32 (firstBlock e)).

Definition active_entries (s : VFS) : list DirEntry :=
  filter (fun e => negb (String.eqb (name e) "")) (directory s).

Definition count_value (v : Z) (fat : list Z) : Z :=
  Z.of_nat (List.length (filter (fun x => x =? v) fat)).

(** [count(FREE) + sum of the chain lengths of active files + count(RESERVED)]. *)
Definition conservation_sum (s : VFS) : option Z :=
  let fix chains (es : list DirEntry) : option Z :=
    match es with
    | [] => Some 0
    | e :: es' => c <- entry_chain s e ;; rest <- chains es' ;;
                  Some (Z.of_nat (List.length c) + rest)
    end in
  total <- chains (active_entries s) ;;
  Some (count_value FAT_FREE (FAT s) + total + count_value FAT_RESERVED (FAT s)).

(** ** Arithmetic helpers *)

Lemma div_512_bounds (x : Z) :
  512 * (x / 512) <= x < 512 * (x / 512) + 512.
Proof.
  pose proof (Z.mul_div_le x 512 ltac:(lia)).
  pose proof (Z.mod_pos_bound x 512 ltac:(lia)).
  pose proof (Z.div_mod x 512 ltac:(lia)).
  lia.
Qed.

Lemma blocks_for_step (rem : Z) :
  0 < rem ->
  1 <= blocks_for rem /\
  blocks_for (rem - Z.min BLOCK_SIZE rem) = blocks_for rem - 1.
Proof.
  intros Hpos. unfold blocks_for, BLOCK_SIZE.
  pose proof (div_512_bounds (rem + 512 - 1)) as Hb.
  destruct (Z.le_gt_cases rem 512) as [Hle | Hgt].
  - rewrite Z.min_r by lia. replace (rem - rem + 512 - 1) with 511 by lia.
    change (511 / 512) with 0. lia.
  - rewrite Z.min_l by lia.
    replace (rem - 512 + 512 - 1) with ((rem + 512 - 1) + (-1) * 512) by lia.
    rewrite Z.div_add by lia. lia.
Qed.

Lemma blocks_for_nonpos (rem : Z) : rem <= 0 -> 0 <= rem -> blocks_for rem = 0.
Proof. intros. assert (rem = 0) by lia. subst. reflexivity. Qed.

(** ** The export loop: bounded by the byte counter *)

Lemma copyToHost_loop_bounded :
  forall fuel fat readBlock blk rem out iters,
    (Z.to_nat (blocks_for rem) <= fuel)%nat ->
    match copyToHost_loop fuel fat readBlock blk rem out iters with
    | LoopOutOfFuel => False
    | LoopDone _ k | LoopUndefined k => (k <= iters + Z.to_nat (blocks_for rem))%nat
    end.
Proof.
  induction fuel as [| fuel IH]; intros fat readBlock blk rem out iters Hfuel;
    simpl copyToHost_loop.
  - destruct (negb (blk =? FAT_EOF) && (0 <? rem)) eqn:Hc; [| lia].
    apply andb_prop in Hc as [_ Hr]. apply Z.ltb_lt in Hr.
    pose proof (blocks_for_step rem Hr). lia.
  - destruct (negb (blk =? FAT_EOF) && (0 <? rem)) eqn:Hc; [| lia].
    apply andb_prop in Hc as [_ Hr]. apply Z.ltb_lt in Hr.
    destruct (blocks_for_step rem Hr) as [H1 H2].
    assert (Hnn : 0 <= blocks_for (rem - Z.min BLOCK_SIZE rem)).
    { unfold blocks_for, BLOCK_SIZE in *. apply Z.div_pos; lia. }
    assert (Hf : (Z.to_nat (blocks_for (rem - Z.min BLOCK_SIZE rem)) <= fuel)%nat) by lia.
    destruct (blk <? 0).
    + specialize (IH fat readBlock FAT_EOF (rem - Z.min BLOCK_SIZE rem)
                    ((out ++ firstn (Z.to_nat (Z.min BLOCK_SIZE rem)) (readBlock blk))%list)
                    (S iters) Hf).
      destruct (copyToHost_loop _ _ _ _ _ _ _); lia.
    + destruct (vget fat blk) as [next |].
      * specialize (IH fat readBlock next (rem - Z.min BLOCK_SIZE rem)
                      ((out ++ firstn (Z.to_nat (Z.min BLOCK_SIZE rem)) (readBlock blk))%list)
                      (S iters) Hf).
        destruct (copyToHost_loop _ _ _ _ _ _ _); lia.
      * lia.
Qed.

(** C10: for every directory entry and every allocation table (any list of
    int32 values, cycles included) and any disk contents, the export loop of
    [copyToHost] stops after at most [ceil(size / BLOCK_SIZE)] iterations,
    however large an iteration budget it is given: the remaining-byte
    counter drops by [min(BLOCK_SIZE, remaining)] at each iteration.  (A
    stop at an out-of-range [FAT[blk]] read is counted as well.) *)
Theorem copyToHost_loop_terminates :
  forall (fat : list Z) (readBlock : Z -> list Byte.byte) (e : DirEntry) (extra : nat),
    match copyToHost_loop (Z.to_nat (blocks_for (size e)) + extra) fat readBlock
            (to_int32 (firstBlock e)) (size e) [] O with
    | LoopOutOfFuel => False
    | LoopDone _ k | LoopUndefined k => (k <= Z.to_nat (blocks_for (size e)))%nat
    end.
Proof.
  intros fat readBlock e extra.
  pose proof (copyToHost_loop_bounded (Z.to_nat (blocks_for (size e)) + extra) fat
                readBlock (to_int32 (firstBlock e)) (size e) [] O ltac:(lia)) as H.
  destruct (copyToHost_loop _ _ _ _ _ _ _); simpl in H; lia.
Qed.

(** ** Failed imports leave the volume untouched *)

(** C4: whenever [copyFromHost] returns [false] (name conflict, directory
    full, host file unreadable or empty, not enough free blocks), the state
    it leaves is the state it started from: the in-memory directory and FAT,
    the persisted directory and FAT regions and the data blocks. *)
Theorem copyFromHost_failure_unchanged :
  forall hostFile hf now s s',
    copyFromHost hostFile hf now s = Some (false, s') -> s' = s.
Proof.
  intros hostFile hf now s s' H. unfold copyFromHost in H.
  destruct (0 <=? findDirectoryEntry (directory s) (basename hostFile));
    [congruence |].
  destruct (findFreeSlot (directory s) <? 0); [congruence |].
  destruct hf as [h |]; [| congruence].
  destruct (hsize h <=? 0); [congruence |].
  destruct (findFreeBlocks _ _ _) as [[found blocks] |]; [| discriminate].
  destruct found; simpl in H; [| congruence].
  repeat match type of H with
         | context [match ?x with _ => _ end] => destruct x
         end; discriminate.
Qed.

(** ** The magic check of [loadDisk] *)

Lemma strncmp_zero_iff :
  forall n a b,
    (forall k, (k < n)%nat -> nth k b NUL <> NUL) ->
    (strncmp a b n = 0 <-> forall k, (k < n)%nat -> nth k a NUL = nth k b NUL).
Proof.
  induction n as [| n IH]; intros a b Hb; simpl.
  - split; [intros _ k Hk; lia | reflexivity].
  - assert (HbNUL : hd NUL b <> NUL).
    { specialize (Hb O ltac:(lia)). destruct b; simpl in *; auto. }
    destruct (Ascii.eqb (hd NUL a) (hd NUL b)) eqn:Heq.
    + apply Ascii.eqb_eq in Heq. rewrite Heq.
      destruct (Ascii.eqb (hd NUL b) NUL) eqn:Hn.
      { apply Ascii.eqb_eq in Hn. contradiction. }
      rewrite IH.
      * split.
        -- intros Hk [| k] Hlt.
           ++ destruct a, b; simpl in *; congruence.
           ++ specialize (Hk k ltac:(lia)). destruct a, b; simpl in *; auto.
              all: destruct k; simpl in *; auto.
        -- intros Hk k Hlt. specialize (Hk (S k) ltac:(lia)).
           destruct a, b; simpl in *; auto; destruct k; simpl in *; auto.
      * intros k Hk. specialize (Hb (S k) ltac:(lia)).
        destruct b; simpl in *; try destruct k; auto.
    + apply Ascii.eqb_neq in Heq. split.
      * intros Hz. exfalso. apply Heq.
        rewrite <- (ascii_nat_embedding (hd NUL a)),
                <- (ascii_nat_embedding (hd NUL b)).
        f_equal. lia.
      * intros Hk. exfalso. apply Heq. specialize (Hk O ltac:(lia)).
        destruct a, b; simpl in *; auto.
Qed.

(** C6 (as the code has it): [loadDisk] on an opened disk fails with the
    corruption error exactly when one of the first seven bytes of the
    stored magic differs from "TTvfs01"; [strncmp] is given
    [strlen(FS_NAME) = 7], so the eighth byte (the terminator written by
    [createDisk]) is never compared. *)
Theorem loadDisk_corrupt_iff_first7 :
  forall img,
    loadDisk true img = LoadCorrupt <->
    ~ (forall k, (k < 7)%nat -> nth k (fsName (sb img)) NUL = nth k FS_NAME NUL).
Proof.
  intros img. unfold loadDisk, readSuperblock.
  change (strlen FS_NAME) with 7%nat.
  assert (Hname : forall k, (k < 7)%nat -> nth k FS_NAME NUL <> NUL).
  { intros k Hk.
    do 7 (destruct k as [| k]; [simpl; discriminate |]). lia. }
  pose proof (strncmp_zero_iff 7 (fsName (sb img)) FS_NAME Hname) as Hiff.
  destruct (strncmp (fsName (sb img)) FS_NAME 7 =? 0) eqn:Hz; cbn [negb].
  - apply Z.eqb_eq in Hz. split; [intros Hc; discriminate Hc | intros Hn; exfalso; tauto].
  - apply Z.eqb_neq in Hz. split; [intros _ Hk | reflexivity].
    apply Hz, Hiff, Hk.
Qed.

(** ** Concrete volumes *)

Definition default_vfs : VFS :=
  mkVFS (format_superblock 0) [] [] [] [] (fun _ => zero_block).

Definition formatted (diskSize : Z) : VFS :=
  match createDisk diskSize with Some v => v | None => default_vfs end.

Definition after (s : VFS) (ops : list Op) : VFS :=
  match run s ops with Some v => v | None => default_vfs end.

(** A volume of 11 blocks: blocks 0-8 hold the metadata, 9 and 10 are data. *)
Definition vol11 : VFS := formatted 5632.

Lemma vol11_formatted : createDisk 5632 = Some vol11.
Proof. vm_compute. reflexivity. Qed.

(** The 11-block volume with the stored magic "TTvfs01X". *)
Definition vol11_magic_X : VFS :=
  let b := sb vol11 in
  mkVFS (mkSuperBlock ["T"; "T"; "v"; "f"; "s"; "0"; "1"; "X"]%char
           (blockSize b) (totalBlocks b) (totalDirEntries b) (dirStartBlock b)
           (dirBlockCount b) (fatStartBlock b) (fatBlockCount b) (dataStartBlock b))
        (directory vol11) (FAT vol11) (dirRegion vol11) (fatRegion vol11)
        (dataBlocks vol11).

(** C6 as stated fails: a magic that differs from the 8-byte [FS_NAME] in
    its eighth byte is accepted by [loadDisk]. *)
Lemma loadDisk_accepts_magic_TTvfs01X :
  ~ (forall img, loadDisk true img = LoadCorrupt <-> fsName (sb img) <> FS_NAME).
Proof.
  intros H. specialize (H vol11_magic_X).
  assert (Hne : fsName (sb vol11_magic_X) <> FS_NAME).
  { vm_compute. intros Heq. inversion Heq. }
  apply H in Hne. vm_compute in Hne. discriminate.
Qed.

(** C4 witness: a second import of "notes.txt" fails on the name conflict
    and leaves the volume as it was. *)
Definition vol11_notes : VFS :=
  after vol11 [OpCopyFromHost "notes.txt" (Some (host_of_list [Byte.x68; Byte.x69])) 100].

Lemma copyFromHost_failure_unchanged_witness :
  copyFromHost "docs/notes.txt" (Some (host_of_list [Byte.x2a])) 200 vol11_notes
    = Some (false, vol11_notes) /\ vol11_notes = vol11_notes.
Proof.
  split.
  - vm_compute. reflexivity.
  - apply (copyFromHost_failure_unchanged "docs/notes.txt"
             (Some (host_of_list [Byte.x2a])) 200 vol11_notes vol11_notes).
    vm_compute. reflexivity.
Defined.

(** ** The block map *)

(** [rs] lists, in ascending order, the maximal runs of blocks [lo..hi]
    with one classification under [cls]: each range is nonempty and
    uniform, the next range starts right after it with a different
    classification, and the last range ends at [hi]. *)
Inductive runs_ok (cls : Z -> option Class) : Z -> Z -> list MapRange -> Prop :=
| runs_last lo hi c :
    lo <= hi ->
    (forall j, lo <= j <= hi -> cls j = Some c) ->
    runs_ok cls lo hi [(lo, hi, c)]
| runs_cons lo e hi c rest :
    lo <= e -> e < hi ->
    (forall j, lo <= j <= e -> cls j = Some c) ->
    cls (e + 1) <> Some c ->
    runs_ok cls (e + 1) hi rest ->
    runs_ok cls lo hi ((lo, e, c) :: rest).

Lemma class_eqb_true (d c : Class) :
  String.eqb (fst d) (fst c) && String.eqb (snd d) (snd c) = true -> d = c.
Proof.
  destruct d as [d1 d2], c as [c1 c2]. simpl. intros H.
  apply andb_prop in H as [H1 H2].
  apply String.eqb_eq in H1, H2. subst. reflexivity.
Qed.

Lemma class_eqb_false (d c : Class) :
  String.eqb (fst d) (fst c) && String.eqb (snd d) (snd c) = false -> d <> c.
Proof.
  intros H Heq. subst. rewrite !String.eqb_refl in H. discriminate.
Qed.

Lemma showMap_loop_runs :
  forall s n i start c,
    let T := totalBlocks (sb s) in
    0 < T < 2 ^ 32 ->
    0 <= start < i ->
    i + Z.of_nat n = T ->
    (forall j, start <= j < i -> describe_block s j = Some c) ->
    (forall j, i <= j < T -> describe_block s j <> None) ->
    exists rs, showMap_loop s n i start c = Some rs /\
               runs_ok (describe_block s) start (T - 1) rs.
Proof.
  intros s n. induction n as [| n IH]; intros i start c T HT Hs Hn Hc Hdef; simpl.
  - exists [(start, T - 1, c)]. unfold u32. rewrite Z.mod_small by lia.
    split; [reflexivity |]. constructor; [lia |].
    intros j Hj. apply Hc. lia.
  - destruct (describe_block s i) as [d |] eqn:Hd.
    2: { exfalso. apply (Hdef i); [lia | exact Hd]. }
    destruct (String.eqb (fst d) (fst c) && String.eqb (snd d) (snd c)) eqn:Heq.
    + apply class_eqb_true in Heq. subst d.
      apply (IH (i + 1) start c); try lia.
      * intros j Hj. destruct (Z.eq_dec j i) as [-> | Hne]; [exact Hd |].
        apply Hc. lia.
      * intros j Hj. apply Hdef. lia.
    + apply class_eqb_false in Heq.
      destruct (IH (i + 1) i d) as [rest [Hrest Hok]]; try lia.
      { intros j Hj. replace j with i by lia. exact Hd. }
      { intros j Hj. apply Hdef. lia. }
      rewrite Hrest. eexists; split; [reflexivity |].
      apply runs_cons; try lia.
      * intros j Hj. apply Hc. lia.
      * replace (i - 1 + 1) with i by lia. rewrite Hd. congruence.
      * replace (i - 1 + 1) with i by lia. exact Hok.
Qed.

(** C9: on a volume whose geometry has at least one block (block 0 holds
    the geometry), with the in-memory tables [loadDisk] gives it
    ([totalBlocks] FAT entries, [MAX_FILES] directory slots), and for
    which every block can be classified (every chain walk of
    [describe_block] ends), [showMap] classifies each block once
    with [describe_block] (superblock, directory, FAT, free, file(name),
    unknown) and reports exactly the maximal runs of equal (type, status),
    in ascending order, covering blocks [0 .. totalBlocks - 1]. *)
Theorem showMap_maximal_runs :
  forall s,
    0 < totalBlocks (sb s) < 2 ^ 32 ->
    List.length (FAT s) = Z.to_nat (totalBlocks (sb s)) ->
    List.length (directory s) = Z.to_nat MAX_FILES ->
    (forall i, 0 <= i < totalBlocks (sb s) -> describe_block s i <> None) ->
    exists rs, showMap s = Some rs /\
               runs_ok (describe_block s) 0 (totalBlocks (sb s) - 1) rs.
Proof.
  intros s HT _ _ Hdef. unfold showMap.
  destruct (describe_block s 0) as [c0 |] eqn:H0.
  2: { exfalso. apply (Hdef 0); [lia | exact H0]. }
  apply (showMap_loop_runs s _ 1 0 c0); try lia.
  - intros j Hj. replace j with 0 by lia. exact H0.
  - intros j Hj. apply Hdef. lia.
Qed.

(** A volume whose geometry record (as read back by [loadDisk]) places the
    directory in blocks 1-2 and the FAT in blocks 3-4; the file "report"
    occupies blocks 5-9 and block 10 is free.  [readDirectory] reads its
    3584 bytes from block 1 on, through the FAT and blocks 5-7; with
    56-byte entries every slot from 1 on starts on a zero byte there (slot
    19 on the low byte of [FAT[10]]), so every such slot has the empty
    name, which is all [showMap] reads of it. *)
Definition vol_map : VFS :=
  let b := mkSuperBlock FS_NAME BLOCK_SIZE 11 MAX_FILES 1 2 3 2 5 in
  let dir := mkDirEntry "report" 2560 0 "F"%char 5 :: repeat zero_entry 63 in
  let fat := [-2; -2; -2; -2; -2; 6; 7; 8; 9; -1; 0] in
  mkVFS b dir fat dir fat (fun _ => zero_block).

(** C9 witness: the map of [vol_map] is five ranges, with [5-9] the file
    and [10-10] free. *)
Lemma showMap_maximal_runs_witness :
  showMap vol_map =
    Some [(0, 0, ("Superblock", "occupied")); (1, 2, ("Directory", "occupied"));
          (3, 4, ("FAT", "occupied")); (5, 9, ("File(report)", "occupied"));
          (10, 10, ("Free", "free"))] /\
  exists rs, showMap vol_map = Some rs /\
             runs_ok (describe_block vol_map) 0 (totalBlocks (sb vol_map) - 1) rs.
Proof.
  split; [vm_compute; reflexivity |].
  apply (showMap_maximal_runs vol_map).
  - change (totalBlocks (sb vol_map)) with 11. lia.
  - vm_compute. reflexivity.
  - vm_compute. reflexivity.
  - change (totalBlocks (sb vol_map)) with 11. intros i Hi.
    assert (i = 0 \/ i = 1 \/ i = 2 \/ i = 3 \/ i = 4 \/ i = 5 \/ i = 6 \/
            i = 7 \/ i = 8 \/ i = 9 \/ i = 10) as Hcases by lia.
    repeat destruct Hcases as [-> | Hcases]; subst; vm_compute; discriminate.
Defined.

(** ** Imports of awkward host file names *)

(** Runs [copyFromHost] on each (path, contents) in turn (each after a
    [loadDisk]) and collects the returned values. *)
Fixpoint import_all (s : VFS) (files : list (string * list Byte.byte))
    : option (list bool * VFS) :=
  match files with
  | [] => Some ([], s)
  | (p, bytes) :: files' =>
      s0 <- (match loadDisk true s with Loaded v => Some v | _ => None end) ;;
      r <- copyFromHost p (Some (host_of_list bytes)) 0 s0 ;;
      rest <- import_all (snd r) files' ;;
      Some (fst r :: fst rest, snd rest)
  end.

Fixpoint all_distinct (l : list string) : bool :=
  match l with
  | [] => true
  | x :: l' => negb (existsb (String.eqb x) l') && all_distinct l'
  end.

(** A host file name longer than the 31 characters [strncpy] keeps. *)
Definition LONG_NAME : string := "quarterly_financial_report_2025.pdf".

Definition STORED_LONG_NAME : string := "quarterly_financial_report_2025".

(** Two host files [a/LONG_NAME] and [b/LONG_NAME], one byte each, imported
    into the fresh 11-block volume. *)
Definition long_imports : list (string * list Byte.byte) :=
  [("a/" ++ LONG_NAME, [Byte.x01]); ("b/" ++ LONG_NAME, [Byte.x02])].

Definition vol11_long : VFS :=
  match import_all vol11 long_imports with Some (_, v) => v | None => default_vfs end.

(** C7 (code defect): the duplicate-name check of [copyFromHost] compares
    the full base name, but only its first 31 characters are stored; two
    imports of the same 35-character name both succeed and leave two active
    entries named "quarterly_financial_report_2025". *)
Theorem long_name_imports_duplicate_entries :
  createDisk 5632 = Some vol11 /\
  import_all vol11 long_imports = Some ([true; true], vol11_long) /\
  map name (active_entries vol11_long) = [STORED_LONG_NAME; STORED_LONG_NAME] /\
  ~ NoDup (map name (active_entries vol11_long)).
Proof.
  split; [exact vol11_formatted |].
  split; [vm_compute; reflexivity |].
  assert (Hn : map name (active_entries vol11_long) = [STORED_LONG_NAME; STORED_LONG_NAME])
    by (vm_compute; reflexivity).
  split; [exact Hn |].
  rewrite Hn. intros Hnd. inversion Hnd as [| x l Hnotin _]. apply Hnotin. left. reflexivity.
Qed.

(** C1 (code defect, same as C7): the second import of one byte [0x02]
    (with a free block for it) succeeds, but exporting under its stored
    name returns the byte [0x01] of the first import, the first entry of
    that name in slot order. *)
Theorem long_name_round_trip_returns_other_file :
  import_all vol11 long_imports = Some ([true; true], vol11_long) /\
  copyToHost STORED_LONG_NAME vol11_long = Some (true, [Byte.x01]) /\
  [Byte.x01] <> [Byte.x02].
Proof.
  split; [vm_compute; reflexivity |].
  split; [vm_compute; reflexivity |].
  discriminate.
Qed.

(** A volume of 10 blocks: blocks 0-8 hold the metadata, block 9 is data. *)
Definition vol10 : VFS := formatted 5120.

(** A host file named [backup\] (a legal Linux file name): [find_last_of]
    also splits at the backslash, so the base name is empty. *)
Definition BACKSLASH_PATH : string := "backup\".

Definition vol10_backslash : VFS :=
  match copyFromHost BACKSLASH_PATH (Some (host_of_list [Byte.x2a])) 0 vol10 with
  | Some (_, v) => v
  | None => default_vfs
  end.

(** C2 (code defect): importing [backup\] succeeds and takes block 9 for
    the data, but the entry it fills has an empty name, so the slot stays
    free; the block is in no active chain and is not FREE, and the sum
    [count(FREE) + chains + count(RESERVED)] drops from 10 to 9. *)
Theorem empty_basename_import_leaks_block :
  createDisk 5120 = Some vol10 /\
  conservation_sum vol10 = Some 10 /\ totalBlocks (sb vol10) = 10 /\
  copyFromHost BACKSLASH_PATH (Some (host_of_list [Byte.x2a])) 0 vol10
    = Some (true, vol10_backslash) /\
  active_entries vol10_backslash = [] /\
  FAT vol10_backslash = [-2; -2; -2; -2; -2; -2; -2; -2; -2; -1] /\
  conservation_sum vol10_backslash = Some 9.
Proof.
  split_conj; vm_compute; reflexivity.
Qed.

(** A sparse host file of [2^41 + 1] bytes (2 TiB and one byte). *)
Definition huge_file : HostFile := mkHostFile (2 ^ 41 + 1) (fun _ => Byte.x00).

Definition vol10_huge : VFS :=
  match copyFromHost "sparse.img" (Some huge_file) 0 vol10 with
  | Some (_, v) => v
  | None => default_vfs
  end.

(** C3 (code defect): [blocksNeeded] is [ceil(size / 512) = 2^32 + 1]
    cast to [uint32_t], i.e. 1; the import succeeds with a one-block
    chain while the entry records the full size, so the chain of the
    active entry is not [ceil(size / BLOCK_SIZE)] blocks long. *)
Theorem huge_import_chain_too_short :
  copyFromHost "sparse.img" (Some huge_file) 0 vol10 = Some (true, vol10_huge) /\
  map size (active_entries vol10_huge) = [2 ^ 41 + 1] /\
  map (entry_chain vol10_huge) (active_entries vol10_huge) = [Some [9]] /\
  blocks_for (2 ^ 41 + 1) = 4294967297.
Proof.
  split_conj; vm_compute; reflexivity.
Qed.

(** The 10-block volume with a corrupt FAT: the entry "a" starts at block
    9, and [FAT[9]] points to block 1, a directory block. *)
Definition vol10_corrupt : VFS :=
  let dir := mkDirEntry "a" 1 0 "F"%char 9 :: repeat zero_entry 63 in
  let fat := [-2; -2; -2; -2; -2; -2; -2; -2; -2; 1] in
  mkVFS (sb vol10) dir fat dir fat (dataBlocks vol10).

(** C5 (code defect): [deleteFile "a"] tests the successor index against
    [FAT_RESERVED] only after it has freed the entry it read it from, so
    the directory block's entry [FAT[1]] goes from RESERVED to FREE. *)
Theorem deleteFile_frees_reserved_entry :
  vget (FAT vol10_corrupt) 1 = Some FAT_RESERVED /\
  option_map (fun r => (fst r, FAT (snd r))) (deleteFile "a" vol10_corrupt)
    = Some (true, [-2; 0; -2; -2; -2; -2; -2; -2; -2; 0]) /\
  option_map (fun r => vget (FAT (snd r)) 1) (deleteFile "a" vol10_corrupt)
    = Some (Some FAT_FREE).
Proof.
  split_conj; vm_compute; reflexivity.
Qed.

(** Two-letter host file names "aa", "ab", ... *)
Definition two_letters (k : nat) : string :=
  String (ascii_of_nat (97 + k / 26)) (String (ascii_of_nat (97 + k mod 26)) "").

(** 63 ordinary one-byte host files and the file [backup\]. *)
Definition dir_fill_imports : list (string * list Byte.byte) :=
  (map (fun k => (two_letters k, [Byte.x2a])) (seq 0 63) ++
   [(BACKSLASH_PATH, [Byte.x2a])])%list.

(** A volume of 80 blocks (71 data blocks). *)
Definition vol80 : VFS := formatted 40960.

Definition vol80_full : VFS :=
  match import_all vol80 dir_fill_imports with Some (_, v) => v | None => default_vfs end.

(** C8 (code defect, same as C2): after 64 successful imports of files
    with distinct base names, one of them [backup\], the directory is not
    full: the 65th import of a new name "extra.txt" succeeds. *)
Theorem sixty_fifth_import_succeeds :
  createDisk 40960 = Some vol80 /\
  all_distinct (map (fun f => basename (fst f)) dir_fill_imports) = true /\
  List.length dir_fill_imports = 64%nat /\
  import_all vol80 dir_fill_imports = Some (repeat true 64, vol80_full) /\
  option_map fst (copyFromHost "extra.txt" (Some (host_of_list [Byte.x2a])) 0 vol80_full)
    = Some true.
Proof.
  split_conj; vm_compute; reflexivity.
Qed.

End Claims.

(** * Further properties of the code *)

Module Extras.

Import VFS Claims.

(** ** A volume with one imported file *)

Definition NOTES_PATH : string := "docs/notes.txt".

Definition notes_file : HostFile := host_of_list [Byte.x68; Byte.x69].

(** [vol11] after [copyFromHost "docs/notes.txt"] (at time 0). *)
Definition vol11_imported : VFS :=
  match copyFromHost NOTES_PATH (Some notes_file) 0 vol11 with
  | Some (_, v) => v
  | None => vol11
  end.

(** The entry the import creates: "notes.txt", 2 bytes, first block 9. *)
Definition notes_entry : DirEntry := mkDirEntry "notes.txt" 2 0 "F"%char 9.

(** ** The layout [createDisk] writes *)

(** [loadDisk] checks only the magic, so it accepts any geometry.  On the
    layout [createDisk] writes (here on a volume of at most 2^31 blocks,
    so that every block number fits an [int32_t]) the 3584 bytes
    [writeDirectory] writes fill blocks 1-7, the [4 * totalBlocks] bytes
    [writeFAT] writes and its padding fill blocks 8 to
    [dataStartBlock - 1], and the data blocks come after them: the
    directory, the FAT and the data blocks of the model are then disjoint
    parts of the disk file. *)
Definition standard_layout (b : SuperBlock) : bool :=
  (dirStartBlock b =? 1) && (dirBlockCount b =? 7) && (fatStartBlock b =? 8) &&
  (fatBlockCount b =? (4 * totalBlocks b + 511) / 512) &&
  (dataStartBlock b =? 8 + fatBlockCount b) &&
  (0 <=? totalBlocks b) && (totalBlocks b <=? 2 ^ 31).

(** ** [std::vector] access *)

Lemma set_nth_length {A} (v : list A) n x v' :
  set_nth v n x = Some v' -> List.length v' = List.length v.
Proof.
  revert n v'. induction v as [| y v IH]; intros [| n] v' H; simpl in H; try discriminate.
  - injection H as <-. reflexivity.
  - destruct (set_nth v n x) as [r |] eqn:Hr; [| discriminate].
    injection H as <-. simpl. f_equal. eapply IH; eauto.
Qed.

Lemma set_nth_in_range {A} (v : list A) n x :
  (n < List.length v)%nat -> exists v', set_nth v n x = Some v'.
Proof.
  revert n. induction v as [| y v IH]; intros [| n] Hn; simpl in *; try lia.
  - eauto.
  - destruct (IH n ltac:(lia)) as [v' ->]. eauto.
Qed.

Lemma set_nth_out_of_range {A} (v : list A) n x :
  (List.length v <= n)%nat -> set_nth v n x = None.
Proof.
  revert n. induction v as [| y v IH]; intros [| n] Hn; simpl in *; try lia; auto.
  rewrite IH by lia. reflexivity.
Qed.

Lemma nth_error_set_nth {A} (v : list A) n x v' m :
  set_nth v n x = Some v' ->
  nth_error v' m = if Nat.eqb m n then Some x else nth_error v m.
Proof.
  revert n v' m. induction v as [| y v IH]; intros [| n] v' m H; simpl in H;
    try discriminate.
  - injection H as <-. destruct m; reflexivity.
  - destruct (set_nth v n x) as [r |] eqn:Hr; [| discriminate].
    injection H as <-. destruct m as [| m]; simpl; [reflexivity |].
    eapply IH; eauto.
Qed.

Lemma vget_vset {A} (v : list A) i x v' j :
  vset v i x = Some v' -> vget v' j = if Z.eqb j i then Some x else vget v j.
Proof.
  unfold vset, vget. intros H.
  destruct (i <? 0) eqn:Hi; [discriminate |]. apply Z.ltb_ge in Hi.
  destruct (j <? 0) eqn:Hj.
  - apply Z.ltb_lt in Hj. destruct (Z.eqb_spec j i); [lia | reflexivity].
  - apply Z.ltb_ge in Hj. rewrite (nth_error_set_nth _ _ _ _ _ H).
    destruct (Nat.eqb_spec (Z.to_nat j) (Z.to_nat i)), (Z.eqb_spec j i);
      auto; lia.
Qed.

Lemma vset_length {A} (v : list A) i x v' :
  vset v i x = Some v' -> List.length v' = List.length v.
Proof.
  unfold vset. destruct (i <? 0); [discriminate |]. apply set_nth_length.
Qed.

Lemma vset_in_range {A} (v : list A) i x :
  0 <= i < Z.of_nat (List.length v) -> exists v', vset v i x = Some v'.
Proof.
  intros Hi. unfold vset. destruct (Z.ltb_spec i 0); [lia |].
  apply set_nth_in_range. lia.
Qed.

Lemma vget_in_range {A} (v : list A) i :
  0 <= i < Z.of_nat (List.length v) -> exists x, vget v i = Some x.
Proof.
  intros Hi. unfold vget. destruct (Z.ltb_spec i 0); [lia |].
  destruct (nth_error v (Z.to_nat i)) eqn:He; eauto.
  apply nth_error_None in He. lia.
Qed.

Lemma vget_some_range {A} (v : list A) i x :
  vget v i = Some x -> 0 <= i < Z.of_nat (List.length v).
Proof.
  unfold vget. destruct (Z.ltb_spec i 0) as [Hneg | Hnn]; [discriminate |].
  intros Hx. assert (Hl : (Z.to_nat i < List.length v)%nat).
  { apply nth_error_Some. congruence. }
  lia.
Qed.

(** ** Directory lookup *)

Lemma findDirectoryEntry_from_spec :
  forall dir k nm,
    (findDirectoryEntry_from dir k nm = -1 /\
     forall e, In e dir -> name e = "" \/ name e <> nm) \/
    (exists i e, findDirectoryEntry_from dir k nm = k + Z.of_nat i /\
       nth_error dir i = Some e /\ name e = nm /\ nm <> "" /\
       forall j e', (j < i)%nat -> nth_error dir j = Some e' ->
                    name e' = "" \/ name e' <> nm).
Proof.
  induction dir as [| e dir IH]; intros k nm; simpl.
  - left. split; [reflexivity | intros e []].
  - destruct (String.eqb_spec (name e) "") as [He | He]; simpl.
    + destruct (IH (k + 1) nm) as [[Hr Hall] | (i & e' & Hr & Hi & Hn & Hne & Hbefore)].
      * left. split; [exact Hr |]. intros x [<- | Hx]; [left; exact He | auto].
      * right. exists (S i), e'. split; [rewrite Hr; lia |].
        split; [exact Hi |]. split; [exact Hn |]. split; [exact Hne |].
        intros [| j] x Hj Hx; simpl in Hx.
        -- injection Hx as <-. left. exact He.
        -- apply (Hbefore j); [lia | exact Hx].
    + destruct (String.eqb_spec nm (name e)) as [Hn | Hn].
      * right. exists O, e. split; [lia |]. split; [reflexivity |].
        split; [congruence |]. split; [congruence |]. intros j x Hj. lia.
      * destruct (IH (k + 1) nm) as [[Hr Hall] | (i & e' & Hr & Hi & Hn' & Hne & Hbefore)].
        -- left. split; [exact Hr |]. intros x [<- | Hx]; [right; congruence | auto].
        -- right. exists (S i), e'. split; [rewrite Hr; lia |].
           split; [exact Hi |]. split; [exact Hn' |]. split; [exact Hne |].
           intros [| j] x Hj Hx; simpl in Hx.
           ++ injection Hx as <-. right. congruence.
           ++ apply (Hbefore j); [lia | exact Hx].
Qed.

(** [findDirectoryEntry dir nm] is -1 exactly when no active entry (one
    with a nonempty name) is named [nm]; otherwise it is the slot of the
    first active entry named [nm].  In particular the empty name is never
    found, so [copyToHost ""] and [deleteFile ""] always fail. *)
Theorem findDirectoryEntry_first_active_match :
  forall dir nm,
    (findDirectoryEntry dir nm = -1 /\
     forall e, In e dir -> name e = "" \/ name e <> nm) \/
    (exists i e, findDirectoryEntry dir nm = Z.of_nat i /\
       nth_error dir i = Some e /\ name e = nm /\ nm <> "" /\
       forall j e', (j < i)%nat -> nth_error dir j = Some e' ->
                    name e' = "" \/ name e' <> nm).
Proof.
  intros dir nm. destruct (findDirectoryEntry_from_spec dir 0 nm) as [H | H].
  - left. exact H.
  - right. destruct H as (i & e & Hr & Hrest). exists i, e.
    split; [unfold findDirectoryEntry; rewrite Hr; lia | exact Hrest].
Qed.

(** ** Free-block search *)

Lemma to_int32_small (z : Z) : 0 <= z < 2 ^ 31 -> to_int32 z = z.
Proof.
  intros Hz. unfold to_int32, u32. rewrite Z.mod_small by lia.
  destruct (Z.ltb_spec z (2 ^ 31)); lia.
Qed.

Lemma findFreeBlocks_loop_spec (fat : list Z) (count : Z) :
  forall n i acc res,
    (forall x, i <= x < i + Z.of_nat n -> x < 2 ^ 31) ->
    findFreeBlocks_loop fat count i n acc = Some res ->
    exists suffix, res = (acc ++ suffix)%list /\
      Forall (fun y => i <= y < i + Z.of_nat n /\ vget fat y = Some FAT_FREE) suffix /\
      StronglySorted Z.lt suffix /\
      (Z.of_nat (List.length acc) <= Z.max 0 count ->
       Z.of_nat (List.length res) <= Z.max 0 count) /\
      (forall x, i <= x < i + Z.of_nat n -> vget fat x = Some FAT_FREE ->
                 ~ In x suffix ->
                 count <= Z.of_nat (List.length res) /\ Forall (fun y => y < x) suffix).
Proof.
  induction n as [| n IH]; intros i acc res Hw H; simpl in H.
  - injection H as <-. exists []. rewrite app_nil_r.
    split; [reflexivity |]. split; [constructor |]. split; [constructor |].
    split; [auto |]. intros x Hx. lia.
  - destruct (Z.of_nat (List.length acc) <? count) eqn:Hlt.
    + apply Z.ltb_lt in Hlt.
      destruct (vget fat i) as [v |] eqn:Hv; [| discriminate].
      destruct (IH (i + 1) _ res ltac:(intros x Hx; apply Hw; lia) H)
        as (suf & Hres & Hall & Hsorted & Hlen & Hcomp).
      destruct (Z.eqb_spec v FAT_FREE) as [Hfree | Hnf].
      * assert (Hi : 0 <= i).
        { unfold vget in Hv. destruct (Z.ltb_spec i 0); [discriminate | lia]. }
        rewrite (to_int32_small i ltac:(split; [exact Hi | apply Hw; lia])) in Hres.
        exists (i :: suf). split; [rewrite Hres, <- app_assoc; reflexivity |].
        split.
        { constructor; [split; [lia | congruence] |].
          eapply Forall_impl; [| exact Hall]. intros y [Hy Hy']. split; [lia | exact Hy']. }
        split.
        { constructor; [exact Hsorted |].
          eapply Forall_impl; [| exact Hall]. intros y [Hy _]. lia. }
        split.
        { intros _. apply Hlen. rewrite length_app. simpl. lia. }
        intros x Hx Hxf Hnot.
        destruct (Z.eq_dec x i) as [-> | Hne]; [exfalso; apply Hnot; left; reflexivity |].
        destruct (Hcomp x ltac:(lia) Hxf (fun Hin => Hnot (or_intror Hin))) as [Hc Hf].
        split; [exact Hc |]. constructor; [lia | exact Hf].
      * exists suf. split; [exact Hres |].
        split.
        { eapply Forall_impl; [| exact Hall]. intros y [Hy Hy']. split; [lia | exact Hy']. }
        split; [exact Hsorted |]. split; [exact Hlen |].
        intros x Hx Hxf Hnot.
        destruct (Z.eq_dec x i) as [-> | Hne]; [congruence |].
        apply Hcomp; [lia | exact Hxf | exact Hnot].
    + apply Z.ltb_ge in Hlt. injection H as <-. exists []. rewrite app_nil_r.
      split; [reflexivity |]. split; [constructor |]. split; [constructor |].
      split; [auto |]. intros x _ _ _. split; [exact Hlt | constructor].
Qed.

Lemma findFreeBlocks_spec :
  forall b fat count found blocks,
    0 <= count -> totalBlocks b <= 2 ^ 31 ->
    findFreeBlocks b fat count = Some (found, blocks) ->
    found = (Z.of_nat (List.length blocks) =? count) /\
    Z.of_nat (List.length blocks) <= count /\
    StronglySorted Z.lt blocks /\
    (forall y, In y blocks ->
       dataStartBlock b <= y < totalBlocks b /\ vget fat y = Some FAT_FREE) /\
    (forall x, dataStartBlock b <= x < totalBlocks b -> vget fat x = Some FAT_FREE ->
       ~ In x blocks -> found = true /\ Forall (fun y => y < x) blocks).
Proof.
  intros b fat count found blocks Hc HT H. unfold findFreeBlocks in H.
  destruct (findFreeBlocks_loop _ _ _ _ _) as [res |] eqn:Hl; [| discriminate].
  injection H as <- <-.
  assert (Hw : forall x, dataStartBlock b <= x <
                         dataStartBlock b + Z.of_nat (Z.to_nat (totalBlocks b - dataStartBlock b)) ->
                         x < 2 ^ 31) by (intros x Hx; lia).
  destruct (findFreeBlocks_loop_spec fat count _ _ _ _ Hw Hl)
    as (suf & Hres & Hall & Hsorted & Hlen & Hcomp).
  simpl in Hres. subst suf.
  assert (Hlen' : Z.of_nat (List.length res) <= count).
  { specialize (Hlen ltac:(simpl; lia)). lia. }
  split; [reflexivity |]. split; [exact Hlen' |]. split; [exact Hsorted |].
  split.
  - intros y Hy. rewrite Forall_forall in Hall. destruct (Hall y Hy) as [Hr Hf].
    split; [lia | exact Hf].
  - intros x Hx Hxf Hnot.
    destruct (Hcomp x ltac:(lia) Hxf Hnot) as [Hge Hf].
    split; [apply Z.eqb_eq; lia | exact Hf].
Qed.

(** [findFreeBlocks sb FAT count] on a volume of at most 2^31 blocks (so
    that every block index fits the [int32_t] the blocks are stored as)
    returns the lowest free data blocks in increasing order: every
    returned block lies in [[dataStartBlock, totalBlocks)] and is
    [FAT_FREE], at most [count] are returned, [found] says whether exactly
    [count] were, and a free data block that is not returned comes after
    all returned ones and only happens when [found] holds (so on failure
    every free data block is listed). *)
Theorem findFreeBlocks_lowest_free :
  forall b fat count found blocks,
    0 <= count -> totalBlocks b <= 2 ^ 31 ->
    findFreeBlocks b fat count = Some (found, blocks) ->
    found = (Z.of_nat (List.length blocks) =? count) /\
    Z.of_nat (List.length blocks) <= count /\
    StronglySorted Z.lt blocks /\
    (forall y, In y blocks ->
       dataStartBlock b <= y < totalBlocks b /\ vget fat y = Some FAT_FREE) /\
    (forall x, dataStartBlock b <= x < totalBlocks b -> vget fat x = Some FAT_FREE ->
       ~ In x blocks -> found = true /\ Forall (fun y => y < x) blocks).
Proof.
  intros b fat count found blocks Hc HT H.
  exact (findFreeBlocks_spec b fat count found blocks Hc HT H).
Qed.

(** ** Linking a chain *)

Lemma link_chain_frame :
  forall blocks fat fat', link_chain fat blocks = Some fat' ->
  List.length fat' = List.length fat /\
  forall j, ~ In j blocks -> vget fat' j = vget fat j.
Proof.
  induction blocks as [| b rest IH]; intros fat fat' H.
  - injection H as <-. split; [reflexivity | auto].
  - destruct rest as [| b' rest'].
    + simpl in H. split; [exact (vset_length _ _ _ _ H) |].
      intros j Hj. rewrite (vget_vset _ _ _ _ _ H).
      destruct (Z.eqb_spec j b) as [-> | _]; [exfalso; apply Hj; left; reflexivity | reflexivity].
    + simpl in H. destruct (vset fat b b') as [fat1 |] eqn:H1; [| discriminate].
      destruct (IH fat1 fat' H) as [Hl Hf].
      split; [rewrite Hl; exact (vset_length _ _ _ _ H1) |].
      intros j Hj. rewrite Hf by (intros Hin; apply Hj; right; exact Hin).
      rewrite (vget_vset _ _ _ _ _ H1).
      destruct (Z.eqb_spec j b) as [-> | _]; [exfalso; apply Hj; left; reflexivity | reflexivity].
Qed.

Lemma link_chain_head_in_range :
  forall b bs fat fat', link_chain fat (b :: bs) = Some fat' -> 0 <= b.
Proof.
  intros b bs fat fat' H. destruct bs as [| b' bs']; simpl in H.
  - unfold vset in H. destruct (b <? 0) eqn:Hb; [discriminate | apply Z.ltb_ge in Hb; exact Hb].
  - unfold vset in H. destruct (b <? 0) eqn:Hb; [discriminate | apply Z.ltb_ge in Hb; exact Hb].
Qed.

(** The FAT update of [copyFromHost] links the blocks it is given into one
    chain: when [link_chain] succeeds on distinct blocks [b :: bs], the walk
    from [b] in the new FAT visits exactly [b :: bs] and then meets
    [FAT_EOF]; the FAT keeps its length and no entry outside the blocks
    changes. *)
Theorem link_chain_walks_back :
  forall fat b bs fat',
    NoDup (b :: bs) ->
    link_chain fat (b :: bs) = Some fat' ->
    (forall fuel, (List.length bs < fuel)%nat ->
       chain_blocks fuel fat' b = Some (b :: bs)) /\
    List.length fat' = List.length fat /\
    (forall j, ~ In j (b :: bs) -> vget fat' j = vget fat j).
Proof.
  intros fat b bs fat' Hnd H.
  destruct (link_chain_frame _ _ _ H) as [Hl Hf].
  split; [| split; [exact Hl | exact Hf]].
  revert fat b fat' Hnd H Hl Hf.
  induction bs as [| b' bs IH]; intros fat b fat' Hnd H Hl Hf fuel Hfuel.
  - pose proof (link_chain_head_in_range _ _ _ _ H) as Hb.
    destruct fuel as [| fuel]; [simpl in Hfuel; lia |].
    simpl in H. simpl chain_blocks.
    rewrite (vget_vset _ _ _ _ _ H), Z.eqb_refl.
    destruct (Z.eqb_spec b FAT_EOF) as [Heq | _]; [unfold FAT_EOF in Heq; lia |].
    destruct fuel; reflexivity.
  - pose proof (link_chain_head_in_range _ _ _ _ H) as Hb.
    destruct fuel as [| fuel]; [simpl in Hfuel; lia |].
    simpl in H. destruct (vset fat b b') as [fat1 |] eqn:H1; [| discriminate].
    inversion Hnd as [| ? ? Hnotin Hnd']. subst.
    destruct (link_chain_frame (b' :: bs) fat1 fat' H) as [Hl1 Hf1].
    assert (Hrest : chain_blocks fuel fat' b' = Some (b' :: bs)).
    { apply (IH fat1 b' fat' Hnd' H Hl1 Hf1). simpl in Hfuel |- *. lia. }
    simpl chain_blocks.
    destruct (Z.eqb_spec b FAT_EOF) as [Heq | _]; [unfold FAT_EOF in Heq; lia |].
    rewrite (Hf1 b Hnotin), (vget_vset _ _ _ _ _ H1), Z.eqb_refl, Hrest.
    reflexivity.
Qed.

(** ** Formatting a volume *)

Lemma set_nth_app {A} (l1 l2 : list A) j x :
  set_nth (l1 ++ l2) (List.length l1 + j) x =
  match set_nth l2 j x with Some r => Some (l1 ++ r)%list | None => None end.
Proof.
  induction l1 as [| y l1 IH]; simpl.
  - destruct (set_nth l2 j x); reflexivity.
  - rewrite IH. destruct (set_nth l2 j x); reflexivity.
Qed.

Lemma reserve_loop_fresh :
  forall n k m,
    reserve_loop (repeat FAT_RESERVED k ++ repeat FAT_FREE m)%list k n =
    if (n <=? m)%nat
    then Some (repeat FAT_RESERVED (k + n) ++ repeat FAT_FREE (m - n))%list
    else None.
Proof.
  induction n as [| n IH]; intros k m.
  - simpl. rewrite Nat.add_0_r, Nat.sub_0_r. reflexivity.
  - cbn [reserve_loop].
    replace k with (List.length (repeat FAT_RESERVED k) + 0)%nat at 2
      by (rewrite repeat_length; lia).
    rewrite set_nth_app.
    destruct m as [| m]; [reflexivity |].
    cbn [repeat set_nth].
    replace (repeat FAT_RESERVED k ++ FAT_RESERVED :: repeat FAT_FREE m)%list
      with (repeat FAT_RESERVED (S k) ++ repeat FAT_FREE m)%list.
    + rewrite IH. rewrite Nat.add_succ_r. reflexivity.
    + replace (S k) with (k + 1)%nat by lia. rewrite repeat_app, <- app_assoc. reflexivity.
Qed.

Lemma createDisk_eq (d : Z) :
  createDisk d =
  let b := format_superblock (adjust_disk_size d) in
  let T := Z.to_nat (totalBlocks b) in
  let ds := Z.to_nat (dataStartBlock b) in
  let dir := repeat zero_entry (Z.to_nat MAX_FILES) in
  let fat := (repeat FAT_RESERVED ds ++ repeat FAT_FREE (T - ds))%list in
  if (ds <=? T)%nat then Some (mkVFS b dir fat dir fat (fun _ => zero_block))
  else None.
Proof.
  unfold createDisk. cbv zeta.
  change (repeat FAT_FREE (Z.to_nat (totalBlocks (format_superblock (adjust_disk_size d)))))
    with (repeat FAT_RESERVED 0 ++
          repeat FAT_FREE (Z.to_nat (totalBlocks (format_superblock (adjust_disk_size d)))))%list.
  rewrite reserve_loop_fresh. simpl.
  destruct (_ <=? _)%nat; reflexivity.
Qed.

Lemma u32_small (z : Z) : 0 <= z < 2 ^ 32 -> u32 z = z.
Proof. intros H. unfold u32. apply Z.mod_small. exact H. Qed.

Lemma u64_small (z : Z) : 0 <= z < 2 ^ 64 -> u64 z = z.
Proof. intros H. unfold u64. apply Z.mod_small. exact H. Qed.

(** The geometry [format_superblock] computes for a size below 2^32. *)
Lemma format_superblock_geometry (d : Z) :
  0 <= d < 2 ^ 32 ->
  let b := format_superblock d in
  totalBlocks b = d / 512 /\ dirStartBlock b = 1 /\ dirBlockCount b = 7 /\
  fatStartBlock b = 8 /\ fatBlockCount b = (4 * (d / 512) + 511) / 512 /\
  dataStartBlock b = 8 + (4 * (d / 512) + 511) / 512.
Proof.
  intros Hd. cbv zeta. unfold format_superblock. cbn [totalBlocks dirStartBlock
    dirBlockCount fatStartBlock fatBlockCount dataStartBlock].
  unfold BLOCK_SIZE, MAX_FILES, sizeof_DirEntry, sizeof_int32.
  change ((64 * 56 + 512 - 1) / 512) with 7. change (u32 (1 + 7)) with 8.
  pose proof (div_512_bounds d) as Hq.
  assert (H0 : 0 <= d / 512) by (apply Z.div_pos; lia).
  rewrite (u32_small (d / 512 * 4)) by lia.
  rewrite (u32_small (d / 512 * 4 + 512 - 1)) by lia.
  pose proof (div_512_bounds (d / 512 * 4 + 512 - 1)) as Hf.
  rewrite (u32_small (8 + (d / 512 * 4 + 512 - 1) / 512)) by lia.
  replace (d / 512 * 4 + 512 - 1) with (4 * (d / 512) + 511) by lia.
  split_conj; reflexivity.
Qed.

(** [createDisk]'s size adjustment rounds a size up to the next multiple of
    [BLOCK_SIZE] (by less than one block), and replaces 0 by the 10 MB
    default; a size in the last block below 2^32 that is not a multiple of
    [BLOCK_SIZE] wraps around to 0 in the uint32 arithmetic. *)
Theorem adjust_disk_size_rounds_up :
  forall d, 0 <= d < 2 ^ 32 ->
    (d = 0 -> adjust_disk_size d = DEFAULT_DISK_SIZE) /\
    (0 < d <= 2 ^ 32 - 512 ->
       adjust_disk_size d mod BLOCK_SIZE = 0 /\
       d <= adjust_disk_size d < d + BLOCK_SIZE) /\
    (2 ^ 32 - 512 < d -> adjust_disk_size d = 0).
Proof.
  intros d Hd. unfold adjust_disk_size, BLOCK_SIZE.
  pose proof (div_512_bounds d) as Hq.
  pose proof (Z.mod_pos_bound d 512 ltac:(lia)) as Hm.
  pose proof (Z.div_mod d 512 ltac:(lia)) as Hdm.
  split; [| split].
  - intros ->. reflexivity.
  - intros Hr. destruct (Z.eqb_spec d 0) as [Hz | _]; [lia |].
    destruct (Z.eqb_spec (d mod 512) 0) as [H0 | Hn]; cbn [negb].
    + split; [exact H0 | lia].
    + rewrite u32_small by lia. rewrite Z.mod_mul by lia. split; [reflexivity | lia].
  - intros Hr. destruct (Z.eqb_spec d 0) as [Hz | _]; [lia |].
    assert (Hdiv : d / 512 = 2 ^ 23 - 1) by lia.
    assert (Hmod : d mod 512 <> 0) by lia.
    destruct (Z.eqb_spec (d mod 512) 0) as [H0 | _]; [contradiction |]. cbn [negb].
    rewrite Hdiv. reflexivity.
Qed.

Lemma adjust_disk_size_range (d : Z) :
  0 <= d < 2 ^ 32 -> 0 <= adjust_disk_size d < 2 ^ 32.
Proof.
  intros Hd. unfold adjust_disk_size. cbv zeta.
  destruct (d =? 0).
  - unfold DEFAULT_DISK_SIZE, BLOCK_SIZE. simpl. lia.
  - destruct (negb (d mod BLOCK_SIZE =? 0)); [| lia].
    unfold u32. apply Z.mod_pos_bound. lia.
Qed.

(** Over the whole uint32 range of its argument, [createDisk] formats a
    volume unless the volume is too small to hold its own metadata: it
    writes [FAT_RESERVED] past the end of the FAT (undefined behaviour,
    [None]) exactly for a size of 1 to 4096 bytes, where the rounded size
    gives at most 8 blocks but the metadata needs 9, and for a size above
    2^32 - 512, which the rounding wraps to 0 blocks. *)
Theorem createDisk_undefined_iff :
  forall d, 0 <= d < 2 ^ 32 ->
    (createDisk d = None <-> 0 < d <= 4096 \/ 2 ^ 32 - 512 < d).
Proof.
  intros d Hd.
  pose proof (adjust_disk_size_range d Hd) as Ha.
  destruct (adjust_disk_size_rounds_up d Hd) as (H0 & H1 & H2).
  rewrite createDisk_eq. cbv zeta.
  destruct (format_superblock_geometry _ Ha) as (HT & _ & _ & _ & _ & Hds).
  rewrite HT, Hds.
  set (a := adjust_disk_size d) in *.
  pose proof (div_512_bounds a) as Hb.
  pose proof (div_512_bounds (4 * (a / 512) + 511)) as Hq.
  pose proof (Z.div_mod a 512 ltac:(lia)) as Hdm.
  set (T := a / 512) in *. set (q := (4 * T + 511) / 512) in *.
  assert (HT0 : 0 <= T) by (apply Z.div_pos; lia).
  assert (Hcase : (d = 0 /\ a = DEFAULT_DISK_SIZE) \/
                  (0 < d <= 2 ^ 32 - 512 /\ a mod BLOCK_SIZE = 0 /\ d <= a < d + 512) \/
                  (2 ^ 32 - 512 < d /\ a = 0)).
  { destruct (Z.eq_dec d 0) as [Hz | Hz]; [left; split; [exact Hz | apply H0; exact Hz] |].
    right. destruct (Z_le_gt_dec d (2 ^ 32 - 512)) as [Hle | Hgt].
    - left. destruct (H1 ltac:(lia)) as [Hm Hr]. unfold BLOCK_SIZE in Hr. split_conj; auto; lia.
    - right. split; [lia | apply H2; lia]. }
  unfold DEFAULT_DISK_SIZE, BLOCK_SIZE in Hcase.
  destruct (Nat.leb_spec (Z.to_nat (8 + q)) (Z.to_nat T)) as [Hle | Hgt].
  - split; [discriminate |]. intros Hs. exfalso.
    destruct Hcase as [[-> Ha'] | [[Hr [Hm Hr']] | [Hr Ha']]]; lia.
  - split; [intros _ | reflexivity].
    destruct Hcase as [[-> Ha'] | [[Hr [Hm Hr']] | [Hr Ha']]]; [| | lia].
    + exfalso. lia.
    + left. lia.
Qed.

(** A volume [createDisk] formats is laid out as the code computes it:
    [ceil(size / BLOCK_SIZE)] blocks (after the rounding), the directory in
    blocks 1-7, the FAT from block 8 on with one int32 per block, every
    metadata block [FAT_RESERVED] and every data block [FAT_FREE], all 64
    directory entries zeroed; and [loadDisk] accepts the new volume and
    reads back exactly the state [createDisk] wrote. *)
Theorem createDisk_fresh_layout :
  forall d v, 0 <= d < 2 ^ 32 -> createDisk d = Some v ->
    let T := totalBlocks (sb v) in
    let ds := dataStartBlock (sb v) in
    T = adjust_disk_size d / BLOCK_SIZE /\
    dirStartBlock (sb v) = 1 /\ dirBlockCount (sb v) = 7 /\
    fatStartBlock (sb v) = 8 /\ fatBlockCount (sb v) = (4 * T + 511) / 512 /\
    ds = 8 + (4 * T + 511) / 512 /\ ds <= T /\
    FAT v = (repeat FAT_RESERVED (Z.to_nat ds) ++
             repeat FAT_FREE (Z.to_nat T - Z.to_nat ds))%list /\
    directory v = repeat zero_entry (Z.to_nat MAX_FILES) /\
    loadDisk true v = Loaded v.
Proof.
  intros d v Hd H. cbv zeta.
  pose proof (adjust_disk_size_range d Hd) as Ha.
  rewrite createDisk_eq in H. cbv zeta in H.
  destruct (format_superblock_geometry _ Ha) as (HT & H1 & H7 & H8 & Hfb & Hds).
  assert (Hrd : readSuperblock (format_superblock (adjust_disk_size d)) = true)
    by reflexivity.
  set (b := format_superblock (adjust_disk_size d)) in *. clearbody b.
  destruct (Nat.leb_spec (Z.to_nat (dataStartBlock b)) (Z.to_nat (totalBlocks b)))
    as [Hle | _]; [| discriminate].
  injection H as <-. cbn [sb FAT directory].
  unfold loadDisk. cbn [sb dirRegion fatRegion dataBlocks negb]. rewrite Hrd.
  rewrite HT, Hds in Hle. rewrite H1, H7, H8, Hfb, Hds, HT.
  assert (0 <= adjust_disk_size d / 512) by (apply Z.div_pos; lia).
  assert (0 <= (4 * (adjust_disk_size d / 512) + 511) / 512) by (apply Z.div_pos; lia).
  split_conj; try reflexivity; lia.
Qed.

Lemma adjust_disk_size_blocks (d : Z) :
  0 < d <= 2 ^ 32 - 512 -> adjust_disk_size d / BLOCK_SIZE = (d + 511) / 512.
Proof.
  intros Hd.
  destruct (adjust_disk_size_rounds_up d ltac:(lia)) as (_ & H1 & _).
  destruct (H1 Hd) as [Hm Hr]. unfold BLOCK_SIZE in *.
  set (a := adjust_disk_size d) in *.
  pose proof (Z.div_mod a 512 ltac:(lia)).
  pose proof (div_512_bounds a). pose proof (div_512_bounds (d + 511)). lia.
Qed.

(** The [dmake] command: a size argument whose uint32 value lies outside
    [[4096, 100 MB]] is refused; every accepted size formats a volume of
    [ceil(size / BLOCK_SIZE)] blocks, except the smallest one, 4096, which
    the check accepts but [createDisk] cannot format (undefined behaviour). *)
Theorem dmake_outcomes :
  forall n,
    match dmake (Some n) with
    | DmakeSizeError => u32 n < 4096 \/ 100 * 1024 * 1024 < u32 n
    | DmakeDone None => u32 n = 4096
    | DmakeDone (Some v) =>
        4096 < u32 n <= 100 * 1024 * 1024 /\ totalBlocks (sb v) = (u32 n + 511) / 512
    end.
Proof.
  intros n. unfold dmake.
  assert (Hr : 0 <= u32 n < 2 ^ 32) by (unfold u32; apply Z.mod_pos_bound; lia).
  set (size := u32 n) in *.
  destruct (Z.ltb_spec size 4096) as [Hlo | Hlo];
    [simpl; left; exact Hlo |].
  destruct (Z.ltb_spec (100 * 1024 * 1024) size) as [Hhi | Hhi];
    [simpl; right; exact Hhi |].
  simpl.
  pose proof (createDisk_undefined_iff size Hr) as Hiff.
  destruct (createDisk size) as [v |] eqn:Hc.
  - assert (Hne : size <> 4096).
    { intros Heq. destruct Hiff as [_ Hb]. discriminate (Hb ltac:(lia)). }
    split; [lia |].
    destruct (createDisk_fresh_layout size v Hr Hc) as [HT _].
    rewrite HT. apply adjust_disk_size_blocks. lia.
  - destruct Hiff as [Hf _]. specialize (Hf eq_refl). lia.
Qed.

(** ** Deleting a file *)

Lemma chain_blocks_frame :
  forall fuel fat fat' blk c,
    chain_blocks fuel fat blk = Some c ->
    (forall j, In j c -> vget fat' j = vget fat j) ->
    chain_blocks fuel fat' blk = Some c.
Proof.
  induction fuel as [| fuel IH]; intros fat fat' blk c H Hf; simpl in H |- *;
    destruct (blk =? FAT_EOF); try exact H; try discriminate.
  destruct (vget fat blk) as [next |] eqn:Hv; [| discriminate].
  destruct (chain_blocks fuel fat next) as [rest |] eqn:Hr; [| discriminate].
  injection H as <-.
  rewrite (Hf blk (or_introl eq_refl)), Hv.
  rewrite (IH fat fat' next rest Hr (fun j Hj => Hf j (or_intror Hj))).
  reflexivity.
Qed.

Lemma chain_blocks_bounds :
  forall fuel fat blk c,
    chain_blocks fuel fat blk = Some c ->
    (List.length c <= fuel)%nat /\
    Forall (fun j => 0 <= j < Z.of_nat (List.length fat)) c.
Proof.
  induction fuel as [| fuel IH]; intros fat blk c H; simpl in H;
    destruct (blk =? FAT_EOF).
  - injection H as <-. split; [simpl; lia | constructor].
  - discriminate.
  - injection H as <-. split; [simpl; lia | constructor].
  - destruct (vget fat blk) as [next |] eqn:Hv; [| discriminate].
    destruct (chain_blocks fuel fat next) as [rest |] eqn:Hr; [| discriminate].
    injection H as <-. destruct (IH _ _ _ Hr) as [Hl Hall].
    pose proof (vget_some_range _ _ _ Hv).
    split; [simpl; lia | constructor; [lia | exact Hall]].
Qed.

Lemma freeChain_chain :
  forall c fuel0 fat blk fuel,
    chain_blocks fuel0 fat blk = Some c -> NoDup c -> (List.length c <= fuel)%nat ->
    exists fat', freeChain fuel fat blk = Some fat' /\
      List.length fat' = List.length fat /\
      forall j, vget fat' j = if existsb (Z.eqb j) c then Some FAT_FREE else vget fat j.
Proof.
  induction c as [| x rest IH]; intros fuel0 fat blk fuel H Hnd Hlen.
  - destruct fuel0 as [| fuel0]; simpl in H;
      destruct (Z.eqb_spec blk FAT_EOF) as [He | He]; try discriminate.
    + exists fat. destruct fuel; simpl; rewrite He, Z.eqb_refl; simpl; auto.
    + exists fat. destruct fuel; simpl; rewrite He, Z.eqb_refl; simpl; auto.
    + destruct (vget fat blk); [| discriminate].
      destruct (chain_blocks _ _ _); discriminate.
  - destruct fuel0 as [| fuel0]; simpl in H;
      destruct (Z.eqb_spec blk FAT_EOF) as [He | He]; try discriminate.
    destruct (vget fat blk) as [next |] eqn:Hv; [| discriminate].
    destruct (chain_blocks fuel0 fat next) as [rest' |] eqn:Hr; [| discriminate].
    injection H as Hx Hrest. subst blk rest'.
    inversion Hnd as [| ? ? Hnotin Hnd']. subst.
    pose proof (vget_some_range _ _ _ Hv) as Hrange.
    destruct (vset_in_range fat x FAT_FREE Hrange) as [fat1 Hs].
    assert (Hr1 : chain_blocks fuel0 fat1 next = Some rest).
    { apply (chain_blocks_frame _ fat); [exact Hr |]. intros j Hj.
      rewrite (vget_vset _ _ _ _ _ Hs).
      destruct (Z.eqb_spec j x) as [-> | _]; [contradiction | reflexivity]. }
    destruct fuel as [| fuel]; [simpl in Hlen; lia |].
    destruct (IH fuel0 fat1 next fuel Hr1 Hnd' ltac:(simpl in Hlen; lia))
      as (fat' & Hfc & Hl & Hget).
    exists fat'. split; [| split].
    + simpl. destruct (Z.eqb_spec x FAT_EOF) as [Hc | _]; [contradiction |].
      destruct (Z.eqb_spec x FAT_RESERVED) as [Hc | _]; [unfold FAT_RESERVED in Hc; lia |].
      simpl. rewrite Hv, Hs. exact Hfc.
    + rewrite Hl. exact (vset_length _ _ _ _ Hs).
    + intros j. rewrite Hget, (vget_vset _ _ _ _ _ Hs). simpl.
      destruct (Z.eqb_spec j x) as [-> | _]; simpl;
        destruct (existsb _ rest); reflexivity.
Qed.

Lemma deleteFile_chain_spec :
  forall nm s i e c,
    findDirectoryEntry (directory s) nm = Z.of_nat i ->
    nth_error (directory s) i = Some e ->
    entry_chain s e = Some c -> NoDup c ->
    exists s', deleteFile nm s = Some (true, s') /\
      List.length (FAT s') = List.length (FAT s) /\
      (forall j, vget (FAT s') j =
                 if existsb (Z.eqb j) c then Some FAT_FREE else vget (FAT s) j) /\
      (forall k, nth_error (directory s') k =
                 if Nat.eqb k i then Some (mkDirEntry "" 0 (created e) (type e) 0)
                 else nth_error (directory s) k) /\
      fatRegion s' = FAT s' /\ dirRegion s' = directory s' /\
      sb s' = sb s /\ dataBlocks s' = dataBlocks s.
Proof.
  intros nm s i e c Hidx Hi Hc Hnd.
  unfold entry_chain in Hc.
  destruct (chain_blocks_bounds _ _ _ _ Hc) as [Hlen _].
  destruct (freeChain_chain c _ _ _ (2 * List.length (FAT s) + 2) Hc Hnd
              ltac:(lia)) as (fat' & Hfc & Hl & Hget).
  assert (Hvi : vget (directory s) (Z.of_nat i) = Some e).
  { unfold vget. destruct (Z.ltb_spec (Z.of_nat i) 0); [lia |].
    rewrite Nat2Z.id. exact Hi. }
  assert (Hlt : (i < List.length (directory s))%nat).
  { apply nth_error_Some. rewrite Hi. discriminate. }
  destruct (set_nth_in_range (directory s) i (mkDirEntry "" 0 (created e) (type e) 0) Hlt)
    as [dir' Hs].
  assert (Hvs : vset (directory s) (Z.of_nat i) (mkDirEntry "" 0 (created e) (type e) 0)
                = Some dir').
  { unfold vset. destruct (Z.ltb_spec (Z.of_nat i) 0); [lia |].
    rewrite Nat2Z.id. exact Hs. }
  exists (mkVFS (sb s) dir' fat' dir' fat' (dataBlocks s)).
  split.
  - unfold deleteFile. rewrite Hidx.
    destruct (Z.ltb_spec (Z.of_nat i) 0); [lia |].
    rewrite Hvi, Hfc, Hvs. reflexivity.
  - cbn [FAT directory fatRegion dirRegion sb dataBlocks].
    split_conj; try reflexivity; [exact Hl | exact Hget |].
    intros k. exact (nth_error_set_nth _ _ _ _ k Hs).
Qed.

(** [deleteFile] on the name of an active entry whose chain is well formed
    (it reaches [FAT_EOF] through distinct blocks), on a volume with the
    layout [createDisk] writes, returns [true], sets exactly the blocks of
    that chain to [FAT_FREE], leaves every other FAT entry as it was,
    clears the entry's name, size and first block (keeping its creation
    time and type), changes no other directory slot, writes the new
    directory and FAT to the disk and leaves the superblock and every data
    block as they were. *)
Theorem deleteFile_frees_exact_chain :
  forall nm s i e c,
    standard_layout (sb s) = true ->
    findDirectoryEntry (directory s) nm = Z.of_nat i ->
    nth_error (directory s) i = Some e ->
    entry_chain s e = Some c -> NoDup c ->
    exists s', deleteFile nm s = Some (true, s') /\
      List.length (FAT s') = List.length (FAT s) /\
      (forall j, vget (FAT s') j =
                 if existsb (Z.eqb j) c then Some FAT_FREE else vget (FAT s) j) /\
      (forall k, nth_error (directory s') k =
                 if Nat.eqb k i then Some (mkDirEntry "" 0 (created e) (type e) 0)
                 else nth_error (directory s) k) /\
      fatRegion s' = FAT s' /\ dirRegion s' = directory s' /\
      sb s' = sb s /\
      (forall k, dataStartBlock (sb s) <= k -> dataBlocks s' k = dataBlocks s k).
Proof.
  intros nm s i e c _ Hidx Hi Hc Hnd.
  destruct (deleteFile_chain_spec nm s i e c Hidx Hi Hc Hnd)
    as (s' & Hdel & Hl & Hget & Hdir & Hfr & Hdr & Hsb & Hdata).
  exists s'. split_conj; try assumption.
  intros k _. rewrite Hdata. reflexivity.
Qed.

(** ** Import then export *)

(** [n] bytes of the host file from offset [a]. *)
Definition host_bytes (h : HostFile) (a : Z) (n : nat) : list Byte.byte :=
  map (fun j => hbyte h (a + Z.of_nat j)) (seq 0 n).

Lemma map_seq_offset {B} (s : nat) :
  forall (f : nat -> B) n, map f (seq s n) = map (fun j => f (s + j)%nat) (seq 0 n).
Proof.
  induction s as [| s IH]; intros f n.
  - reflexivity.
  - rewrite <- seq_shift, map_map, IH. reflexivity.
Qed.

Lemma host_bytes_app (h : HostFile) (a : Z) (n m : nat) :
  host_bytes h a (n + m) = (host_bytes h a n ++ host_bytes h (a + Z.of_nat n) m)%list.
Proof.
  unfold host_bytes. rewrite seq_app, map_app. f_equal.
  rewrite map_seq_offset. apply map_ext. intros j. f_equal. lia.
Qed.

Lemma firstn_block_bytes (h : HostFile) (k : Z) :
  firstn (Z.to_nat (Z.min BLOCK_SIZE (hsize h - k * BLOCK_SIZE))) (block_bytes h k) =
  host_bytes h (k * BLOCK_SIZE) (Z.to_nat (Z.min BLOCK_SIZE (hsize h - k * BLOCK_SIZE))).
Proof.
  unfold block_bytes. rewrite firstn_app, length_map, length_seq, Nat.sub_diag.
  simpl firstn. rewrite app_nil_r, firstn_all2 by (rewrite length_map, length_seq; lia).
  reflexivity.
Qed.

Lemma write_data_frame (h : HostFile) :
  forall blocks i data b, ~ In b blocks -> write_data h blocks i data b = data b.
Proof.
  induction blocks as [| b0 bs IH]; intros i data b Hb; simpl.
  - reflexivity.
  - rewrite IH by (intros Hin; apply Hb; right; exact Hin).
    destruct (Z.eqb_spec b b0) as [-> | _]; [exfalso; apply Hb; left; reflexivity | reflexivity].
Qed.

Lemma write_data_nth (h : HostFile) :
  forall blocks i data m b, NoDup blocks -> nth_error blocks m = Some b ->
    write_data h blocks i data b = block_bytes h (i + Z.of_nat m).
Proof.
  induction blocks as [| b0 bs IH]; intros i data m b Hnd Hm.
  - destruct m; discriminate.
  - inversion Hnd as [| ? ? Hnotin Hnd']. subst. simpl.
    destruct m as [| m]; simpl in Hm.
    + injection Hm as <-. rewrite write_data_frame by exact Hnotin.
      rewrite Z.eqb_refl. f_equal. lia.
    + rewrite (IH (i + 1) _ m b Hnd' Hm). f_equal. lia.
Qed.

Lemma blocks_for_zero (rem : Z) : 0 <= rem -> blocks_for rem = 0 -> rem = 0.
Proof.
  intros H0 H. unfold blocks_for, BLOCK_SIZE in H.
  pose proof (div_512_bounds (rem + 512 - 1)). lia.
Qed.

Lemma blocks_for_nonneg (rem : Z) : 0 <= rem -> 0 <= blocks_for rem.
Proof. intros H. unfold blocks_for, BLOCK_SIZE. apply Z.div_pos; lia. Qed.

(** The export loop following a chain whose [m]-th block holds block [k + m]
    of the host file copies the next [rem] bytes of the host file. *)
Lemma copyToHost_loop_reads_chain (h : HostFile) (fat : list Z)
    (readBlock : Z -> list Byte.byte) :
  forall bs fuel0 blk k rem out iters fuel,
    chain_blocks fuel0 fat blk = Some bs ->
    (forall m b, nth_error bs m = Some b -> readBlock b = block_bytes h (k + Z.of_nat m)) ->
    0 <= rem -> (rem = 0 \/ rem = hsize h - k * BLOCK_SIZE) ->
    List.length bs = Z.to_nat (blocks_for rem) ->
    (List.length bs <= fuel)%nat ->
    copyToHost_loop fuel fat readBlock blk rem out iters =
    LoopDone (out ++ host_bytes h (k * BLOCK_SIZE) (Z.to_nat rem))%list
             (iters + List.length bs).
Proof.
  induction bs as [| b bs IH]; intros fuel0 blk k rem out iters fuel Hc Hread Hr0 Hrem Hlen Hfuel.
  - assert (Hblk : blk = FAT_EOF).
    { destruct fuel0 as [| fuel0]; simpl in Hc;
        destruct (Z.eqb_spec blk FAT_EOF); try discriminate; auto.
      destruct (vget fat blk); [| discriminate].
      destruct (chain_blocks _ _ _); discriminate. }
    subst blk.
    assert (rem = 0).
    { apply blocks_for_zero; [exact Hr0 |].
      pose proof (blocks_for_nonneg rem Hr0). simpl in Hlen. lia. }
    subst rem. destruct fuel; simpl; rewrite app_nil_r, Nat.add_0_r; reflexivity.
  - destruct fuel0 as [| fuel0]; simpl in Hc;
      destruct (Z.eqb_spec blk FAT_EOF) as [He | He]; try discriminate.
    destruct (vget fat blk) as [next |] eqn:Hv; [| discriminate].
    destruct (chain_blocks fuel0 fat next) as [bs' |] eqn:Hc'; [| discriminate].
    injection Hc as Hb Hbs. subst blk bs'.
    pose proof (vget_some_range _ _ _ Hv) as Hbr.
    assert (Hpos : 0 < rem).
    { destruct (Z.eq_dec rem 0) as [-> | ]; [simpl in Hlen; discriminate | lia]. }
    destruct Hrem as [Hz | Hrem]; [lia |].
    destruct (blocks_for_step rem Hpos) as [_ Hstep].
    destruct fuel as [| fuel]; [simpl in Hfuel; lia |].
    simpl copyToHost_loop.
    destruct (Z.eqb_spec b FAT_EOF) as [Hc | _]; [contradiction |].
    destruct (Z.ltb_spec 0 rem) as [_ | Hc]; [| lia]. cbn [negb andb].
    destruct (Z.ltb_spec b 0) as [Hc | _]; [lia |].
    rewrite Hv.
    rewrite (Hread O b eq_refl), Z.add_0_r.
    assert (Hfb : firstn (Z.to_nat (Z.min BLOCK_SIZE rem)) (block_bytes h k) =
                  host_bytes h (k * BLOCK_SIZE) (Z.to_nat (Z.min BLOCK_SIZE rem)))
      by (rewrite Hrem; apply firstn_block_bytes).
    rewrite Hfb.
    assert (Hsplit : rem - Z.min BLOCK_SIZE rem = 0 \/
                     (Z.min BLOCK_SIZE rem = BLOCK_SIZE /\
                      rem - Z.min BLOCK_SIZE rem = hsize h - (k + 1) * BLOCK_SIZE)).
    { unfold BLOCK_SIZE in *. destruct (Z.le_gt_cases rem 512).
      - left. lia.
      - right. lia. }
    rewrite (IH fuel0 next (k + 1) (rem - Z.min BLOCK_SIZE rem)
               (out ++ host_bytes h (k * BLOCK_SIZE) (Z.to_nat (Z.min BLOCK_SIZE rem)))%list
               (S iters) fuel Hc').
    + replace (iters + List.length (b :: bs))%nat with (S iters + List.length bs)%nat
        by (simpl; lia).
      rewrite <- app_assoc. f_equal. f_equal.
      replace (Z.to_nat rem)
        with (Z.to_nat (Z.min BLOCK_SIZE rem) + Z.to_nat (rem - Z.min BLOCK_SIZE rem))%nat
        by (unfold BLOCK_SIZE; lia).
      rewrite host_bytes_app. f_equal.
      destruct Hsplit as [Hz | [Hm _]].
      * rewrite Hz. reflexivity.
      * rewrite Hm. f_equal. unfold BLOCK_SIZE. lia.
    + intros m b' Hm. rewrite (Hread (S m) b' Hm). f_equal. lia.
    + unfold BLOCK_SIZE. lia.
    + destruct Hsplit as [Hz | [_ Hm]]; [left | right]; assumption.
    + rewrite Hstep. simpl in Hlen. lia.
    + simpl in Hfuel. lia.
Qed.

Lemma substring_0_all :
  forall (str : string) n, (String.length str <= n)%nat -> substring 0 n str = str.
Proof.
  induction str as [| c str IH]; intros n Hn; destruct n as [| n]; simpl in *;
    try reflexivity; try lia.
  rewrite IH by lia. reflexivity.
Qed.

Lemma StronglySorted_lt_NoDup : forall l, StronglySorted Z.lt l -> NoDup l.
Proof.
  induction l as [| x l IH]; intros H; constructor.
  - apply StronglySorted_inv in H as [_ Hall]. rewrite Forall_forall in Hall.
    intros Hin. specialize (Hall x Hin). lia.
  - apply IH. apply StronglySorted_inv in H as [H _]. exact H.
Qed.

Lemma findDirectoryEntry_from_set :
  forall dir b n e dir',
    name e <> "" ->
    (forall x, In x dir -> name x = "" \/ name x <> name e) ->
    set_nth dir n e = Some dir' ->
    findDirectoryEntry_from dir' b (name e) = b + Z.of_nat n.
Proof.
  induction dir as [| x dir IH]; intros b n e dir' Hne Hall Hs; [discriminate |].
  destruct n as [| n]; simpl in Hs.
  - injection Hs as <-. simpl.
    destruct (String.eqb_spec (name e) "") as [Hc | _]; [contradiction |].
    rewrite String.eqb_refl. simpl. lia.
  - destruct (set_nth dir n e) as [r |] eqn:Hr; [| discriminate].
    injection Hs as <-. simpl.
    assert (Hskip : negb (String.eqb (name x) "") && String.eqb (name e) (name x) = false).
    { destruct (Hall x (or_introl eq_refl)) as [Hx | Hx].
      - rewrite Hx. reflexivity.
      - destruct (String.eqb_spec (name e) (name x)) as [Hc | _];
          [congruence | apply andb_false_r]. }
    rewrite Hskip, (IH (b + 1) n e r Hne (fun y Hy => Hall y (or_intror Hy)) Hr). lia.
Qed.

(** The steps a successful [copyFromHost] goes through. *)
Lemma copyFromHost_success_inv :
  forall path h now s s',
    copyFromHost path (Some h) now s = Some (true, s') ->
    exists blocks first dir' fat',
      findDirectoryEntry (directory s) (basename path) < 0 /\
      0 <= findFreeSlot (directory s) /\ 0 < hsize h /\
      findFreeBlocks (sb s) (FAT s) (u32 (blocks_for (hsize h))) = Some (true, blocks) /\
      nth_error blocks 0 = Some first /\
      vset (directory s) (findFreeSlot (directory s))
        (mkDirEntry (substring 0 31 (basename path)) (u64 (hsize h)) now "F"%char
                    (u32 first)) = Some dir' /\
      link_chain (FAT s) blocks = Some fat' /\
      s' = mkVFS (sb s) dir' fat' dir' fat' (write_data h blocks 0 (dataBlocks s)).
Proof.
  intros path h now s s' H. unfold copyFromHost in H.
  destruct (Z.leb_spec 0 (findDirectoryEntry (directory s) (basename path))) as [_ | E1];
    [discriminate |].
  destruct (Z.ltb_spec (findFreeSlot (directory s)) 0) as [_ | E2]; [discriminate |].
  destruct (Z.leb_spec (hsize h) 0) as [_ | E3]; [discriminate |].
  destruct (findFreeBlocks (sb s) (FAT s) (u32 ((hsize h + BLOCK_SIZE - 1) / BLOCK_SIZE)))
    as [[found blocks] |] eqn:E4; [| discriminate].
  destruct found; cbn [negb] in H; [| discriminate].
  destruct (nth_error blocks 0) as [first |] eqn:E5; [| discriminate].
  match type of H with
  | context [vset (directory s) ?i ?e] => destruct (vset (directory s) i e) as [dir' |] eqn:E6
  end; [| discriminate].
  destruct (link_chain (FAT s) blocks) as [fat' |] eqn:E7; [| discriminate].
  injection H as <-.
  exists blocks, first, dir', fat'. split_conj; try assumption; reflexivity.
Qed.

Lemma findFreeSlot_from_spec :
  forall dir b,
    (findFreeSlot_from dir b = -1 /\ forall e, In e dir -> name e <> "") \/
    (exists i e, findFreeSlot_from dir b = b + Z.of_nat i /\
       nth_error dir i = Some e /\ name e = "" /\
       forall j e', (j < i)%nat -> nth_error dir j = Some e' -> name e' <> "").
Proof.
  induction dir as [| e dir IH]; intros b; simpl.
  - left. split; [reflexivity | intros e []].
  - destruct (String.eqb_spec (name e) "") as [He | He].
    + right. exists O, e. split; [lia |]. split; [reflexivity |].
      split; [exact He |]. intros j e' Hj. lia.
    + destruct (IH (b + 1)) as [[Hr Hall] | (i & e' & Hr & Hi & Hn & Hbefore)].
      * left. split; [exact Hr |]. intros x [<- | Hx]; [exact He | auto].
      * right. exists (S i), e'. split; [rewrite Hr; lia |].
        split; [exact Hi |]. split; [exact Hn |].
        intros [| j] x Hj Hx; simpl in Hx.
        -- injection Hx as <-. exact He.
        -- apply (Hbefore j); [lia | exact Hx].
Qed.

Lemma NoDup_range_length :
  forall (l : list Z) (n : nat),
    NoDup l -> Forall (fun j => 0 <= j < Z.of_nat n) l -> (List.length l <= n)%nat.
Proof.
  intros l n Hnd Hall.
  assert (Hn : List.length (map Z.of_nat (seq 0 n)) = n)
    by (rewrite length_map, length_seq; reflexivity).
  rewrite <- Hn.
  apply NoDup_incl_length; [exact Hnd |].
  intros x Hx. rewrite Forall_forall in Hall. specialize (Hall x Hx).
  apply in_map_iff. exists (Z.to_nat x). split; [lia |].
  apply in_seq. lia.
Qed.

Lemma vget_ext {A} (l1 l2 : list A) :
  (forall j, vget l1 j = vget l2 j) -> l1 = l2.
Proof.
  intros H. apply nth_error_ext. intros n.
  specialize (H (Z.of_nat n)). unfold vget in H.
  destruct (Z.ltb_spec (Z.of_nat n) 0); [lia |]. rewrite Nat2Z.id in H. exact H.
Qed.

Lemma standard_layout_total (b : SuperBlock) :
  standard_layout b = true -> 0 <= totalBlocks b <= 2 ^ 31.
Proof.
  unfold standard_layout. intros H. rewrite !andb_true_iff in H.
  destruct H as [[_ H1] H2]. apply Z.leb_le in H1, H2. lia.
Qed.

(** What a successful import leaves, under the conditions in which the
    code's name, size and block-number conversions change nothing. *)
Lemma import_stored_entry :
  forall path h now s s',
    copyFromHost path (Some h) now s = Some (true, s') ->
    basename path <> "" ->
    (String.length (basename path) <= 31)%nat ->
    hsize h <= (2 ^ 32 - 1) * BLOCK_SIZE ->
    totalBlocks (sb s) <= 2 ^ 31 ->
    exists first rest slot,
      findFreeSlot (directory s) = Z.of_nat slot /\
      nth_error (directory s) slot = Some (nth slot (directory s) zero_entry) /\
      name (nth slot (directory s) zero_entry) = "" /\
      findDirectoryEntry (directory s') (basename path) = Z.of_nat slot /\
      nth_error (directory s') slot =
        Some (mkDirEntry (basename path) (hsize h) now "F"%char first) /\
      (forall k, k <> slot -> nth_error (directory s') k = nth_error (directory s) k) /\
      0 <= first < 2 ^ 31 /\ 0 < hsize h /\
      NoDup (first :: rest) /\
      Z.of_nat (List.length (first :: rest)) = blocks_for (hsize h) /\
      (forall y, In y (first :: rest) ->
         dataStartBlock (sb s) <= y < totalBlocks (sb s) /\ vget (FAT s) y = Some FAT_FREE) /\
      (forall x, dataStartBlock (sb s) <= x < totalBlocks (sb s) ->
         vget (FAT s) x = Some FAT_FREE -> ~ In x (first :: rest) ->
         Forall (fun y => y < x) (first :: rest)) /\
      StronglySorted Z.lt (first :: rest) /\
      (forall fuel, (List.length rest < fuel)%nat ->
         chain_blocks fuel (FAT s') first = Some (first :: rest)) /\
      List.length (FAT s') = List.length (FAT s) /\
      (forall j, ~ In j (first :: rest) -> vget (FAT s') j = vget (FAT s) j) /\
      dataBlocks s' = write_data h (first :: rest) 0 (dataBlocks s) /\
      sb s' = sb s /\ fatRegion s' = FAT s' /\ dirRegion s' = directory s'.
Proof.
  intros path h now s s' H Hne Hlen Hsize HT.
  destruct (copyFromHost_success_inv _ _ _ _ _ H)
    as (blocks & first & dir' & fat' & E1 & E2 & E3 & E4 & E5 & E6 & E7 & ->).
  set (fname := basename path) in *.
  rewrite substring_0_all in E6 by exact Hlen.
  set (N := blocks_for (hsize h)) in *.
  assert (HN : 1 <= N < 2 ^ 32).
  { subst N. unfold blocks_for, BLOCK_SIZE in *.
    pose proof (div_512_bounds (hsize h + 512 - 1)). lia. }
  rewrite u32_small in E4 by lia.
  destruct (findFreeBlocks_spec (sb s) (FAT s) N true _ ltac:(lia) HT E4)
    as (Hfound & _ & Hsorted & Hin & Hlow).
  symmetry in Hfound. apply Z.eqb_eq in Hfound.
  pose proof (StronglySorted_lt_NoDup _ Hsorted) as Hnd.
  destruct blocks as [| b rest]; [discriminate |].
  simpl in E5. injection E5 as ->.
  destruct (link_chain_walks_back _ _ _ _ Hnd E7) as (Hchain & Hlfat & Hframe).
  pose proof (link_chain_head_in_range _ _ _ _ E7) as Hfirst0.
  destruct (Hin first (or_introl eq_refl)) as [Hfr _].
  rewrite (u32_small first) in E6 by lia.
  rewrite u64_small in E6 by (unfold BLOCK_SIZE in Hsize; lia).
  destruct (findDirectoryEntry_first_active_match (directory s) fname)
    as [[_ Hnone] | (i & e & Hi & _)]; [| lia].
  destruct (findFreeSlot_from_spec (directory s) 0)
    as [[Hr _] | (slot & e & Hr & Hslot & Hempty & _)];
    [unfold findFreeSlot in E2; lia |].
  change (findFreeSlot_from (directory s) 0) with (findFreeSlot (directory s)) in Hr.
  rewrite Hr in E6. unfold vset in E6.
  destruct (Z.ltb_spec (0 + Z.of_nat slot) 0); [lia |].
  replace (Z.to_nat (0 + Z.of_nat slot)) with slot in E6 by lia.
  set (entry := mkDirEntry fname (hsize h) now "F"%char first) in *.
  exists first, rest, slot.
  assert (Hnth : nth slot (directory s) zero_entry = e)
    by (apply nth_error_nth; exact Hslot).
  cbn [directory FAT dataBlocks sb fatRegion dirRegion].
  split_conj; try reflexivity; try assumption; try lia.
  - rewrite Hnth. exact Hslot.
  - rewrite Hnth. exact Hempty.
  - unfold findDirectoryEntry. change fname with (name entry).
    rewrite (findDirectoryEntry_from_set (directory s) 0 slot entry dir' Hne Hnone E6). lia.
  - rewrite (nth_error_set_nth _ _ _ _ slot E6), Nat.eqb_refl. reflexivity.
  - intros k Hk. rewrite (nth_error_set_nth _ _ _ _ k E6).
    destruct (Nat.eqb_spec k slot); [contradiction | reflexivity].
  - intros x Hx Hxf Hnot. exact (proj2 (Hlow x Hx Hxf Hnot)).
Qed.

(** Importing a host file and exporting it under its base name gives back
    exactly the bytes of the host file, when the import succeeds, the base
    name is nonempty and fits the 31 characters the entry stores, the size
    needs fewer than 2^32 blocks and the volume has the layout [createDisk]
    writes with at most 2^31 blocks (so the uint32 and int32 conversions
    of the code change nothing and the directory and FAT writes miss the
    data blocks). *)
Theorem import_export_round_trip :
  forall path h now s s',
    copyFromHost path (Some h) now s = Some (true, s') ->
    basename path <> "" ->
    (String.length (basename path) <= 31)%nat ->
    hsize h <= (2 ^ 32 - 1) * BLOCK_SIZE ->
    standard_layout (sb s) = true ->
    copyToHost (basename path) s' =
    Some (true, map (fun j => hbyte h (Z.of_nat j)) (seq 0 (Z.to_nat (hsize h)))).
Proof.
  intros path h now s s' H Hne Hlen Hsize Hlay.
  assert (HT : totalBlocks (sb s) <= 2 ^ 31) by (pose proof (standard_layout_total _ Hlay); lia).
  destruct (import_stored_entry _ _ _ _ _ H Hne Hlen Hsize HT)
    as (first & rest & slot & _ & _ & _ & Hfind & Hentry & _ & Hfirst & Hpos & Hnd & HN &
        _ & _ & _ & Hchain & _ & _ & Hdata & _).
  assert (Hget : vget (directory s') (Z.of_nat slot) =
                 Some (mkDirEntry (basename path) (hsize h) now "F"%char first)).
  { unfold vget. destruct (Z.ltb_spec (Z.of_nat slot) 0); [lia |].
    rewrite Nat2Z.id. exact Hentry. }
  assert (Hi32 : to_int32 first = first).
  { unfold to_int32. rewrite u32_small by lia.
    destruct (Z.ltb_spec first (2 ^ 31)); lia. }
  unfold copyToHost. rewrite Hfind. destruct (Z.ltb_spec (Z.of_nat slot) 0); [lia |].
  rewrite Hget. cbn [size firstBlock]. rewrite Hi32, Hdata.
  rewrite (copyToHost_loop_reads_chain h (FAT s') (write_data h (first :: rest) 0 (dataBlocks s))
             (first :: rest) (S (List.length rest)) first 0 (hsize h) [] O
             (Z.to_nat (blocks_for (hsize h))) (Hchain (S (List.length rest)) ltac:(lia))).
  - reflexivity.
  - intros m b Hm. apply write_data_nth; assumption.
  - lia.
  - right. lia.
  - lia.
  - lia.
Qed.

(** A successful import writes only what it allocates: the entry goes into
    the first directory slot with an empty name, the blocks it takes are
    the [ceil(size / BLOCK_SIZE)] lowest-numbered free data blocks, and no
    FAT entry, data block or directory slot outside these changes.  (The
    size bound keeps [blocksNeeded] from wrapping in uint32; on the layout
    [createDisk] writes, the directory and FAT writes miss the data
    blocks.) *)
Theorem copyFromHost_footprint :
  forall path h now s s',
    copyFromHost path (Some h) now s = Some (true, s') ->
    hsize h <= (2 ^ 32 - 1) * BLOCK_SIZE ->
    standard_layout (sb s) = true ->
    exists blocks slot e,
      findFreeSlot (directory s) = Z.of_nat slot /\
      nth_error (directory s) slot = Some e /\ name e = "" /\
      (forall j e', (j < slot)%nat -> nth_error (directory s) j = Some e' -> name e' <> "") /\
      Z.of_nat (List.length blocks) = blocks_for (hsize h) /\
      StronglySorted Z.lt blocks /\
      (forall y, In y blocks ->
         dataStartBlock (sb s) <= y < totalBlocks (sb s) /\ vget (FAT s) y = Some FAT_FREE) /\
      (forall x, dataStartBlock (sb s) <= x < totalBlocks (sb s) ->
         vget (FAT s) x = Some FAT_FREE -> ~ In x blocks -> Forall (fun y => y < x) blocks) /\
      (forall j, ~ In j blocks -> vget (FAT s') j = vget (FAT s) j) /\
      (forall j, dataStartBlock (sb s) <= j -> ~ In j blocks ->
         dataBlocks s' j = dataBlocks s j) /\
      (forall k, k <> slot -> nth_error (directory s') k = nth_error (directory s) k) /\
      sb s' = sb s /\ fatRegion s' = FAT s' /\ dirRegion s' = directory s'.
Proof.
  intros path h now s s' H Hsize Hlay.
  assert (HT : totalBlocks (sb s) <= 2 ^ 31) by (pose proof (standard_layout_total _ Hlay); lia).
  destruct (copyFromHost_success_inv _ _ _ _ _ H)
    as (blocks & first & dir' & fat' & E1 & E2 & E3 & E4 & E5 & E6 & E7 & ->).
  set (N := blocks_for (hsize h)) in *.
  assert (HN : 1 <= N < 2 ^ 32).
  { subst N. unfold blocks_for, BLOCK_SIZE in *.
    pose proof (div_512_bounds (hsize h + 512 - 1)). lia. }
  rewrite u32_small in E4 by lia.
  destruct (findFreeBlocks_spec (sb s) (FAT s) N true _ ltac:(lia) HT E4)
    as (Hfound & _ & Hsorted & Hin & Hlow).
  symmetry in Hfound. apply Z.eqb_eq in Hfound.
  destruct (link_chain_frame _ _ _ E7) as [_ Hframe].
  destruct (findFreeSlot_from_spec (directory s) 0)
    as [[Hr _] | (slot & e & Hr & Hslot & Hempty & Hbefore)];
    [unfold findFreeSlot in E2; lia |].
  change (findFreeSlot_from (directory s) 0) with (findFreeSlot (directory s)) in Hr.
  rewrite Hr in E6. unfold vset in E6.
  destruct (Z.ltb_spec (0 + Z.of_nat slot) 0); [lia |].
  replace (Z.to_nat (0 + Z.of_nat slot)) with slot in E6 by lia.
  exists blocks, slot, e.
  cbn [directory FAT dataBlocks sb fatRegion dirRegion].
  split_conj; try reflexivity; try assumption.
  - intros x Hx Hxf Hnot. exact (proj2 (Hlow x Hx Hxf Hnot)).
  - intros j _ Hj. apply write_data_frame; exact Hj.
  - intros k Hk. rewrite (nth_error_set_nth _ _ _ _ k E6).
    destruct (Nat.eqb_spec k slot); [contradiction | reflexivity].
Qed.

(** Deleting a file right after importing it (under the conditions of the
    round trip) succeeds and gives the FAT back exactly as it was before
    the import, in memory and on disk, and leaves every directory slot
    with the name it had before. *)
Theorem import_then_delete_restores_fat :
  forall path h now s s',
    copyFromHost path (Some h) now s = Some (true, s') ->
    basename path <> "" ->
    (String.length (basename path) <= 31)%nat ->
    hsize h <= (2 ^ 32 - 1) * BLOCK_SIZE ->
    totalBlocks (sb s) <= 2 ^ 31 ->
    exists s'', deleteFile (basename path) s' = Some (true, s'') /\
      FAT s'' = FAT s /\ fatRegion s'' = FAT s /\
      map name (directory s'') = map name (directory s).
Proof.
  intros path h now s s' H Hne Hlen Hsize HT.
  destruct (import_stored_entry _ _ _ _ _ H Hne Hlen Hsize HT)
    as (first & rest & slot & _ & Hslot & Hempty & Hfind & Hentry & Hother & Hfirst & _ &
        Hnd & _ & Hin & _ & _ & Hchain & Hlfat & Hframe & _ & _ & _ & _).
  set (e := mkDirEntry (basename path) (hsize h) now "F"%char first) in *.
  assert (Hlenc : (List.length (first :: rest) <= List.length (FAT s'))%nat).
  { apply NoDup_range_length; [exact Hnd |]. rewrite Forall_forall. intros y Hy.
    destruct (Hin y Hy) as [_ Hv]. pose proof (vget_some_range _ _ _ Hv). lia. }
  assert (Hc : entry_chain s' e = Some (first :: rest)).
  { unfold entry_chain. cbn [firstBlock e].
    replace (to_int32 first) with first
      by (unfold to_int32; rewrite u32_small by lia; destruct (Z.ltb_spec first (2 ^ 31)); lia).
    apply Hchain. simpl in Hlenc. lia. }
  destruct (deleteFile_chain_spec (basename path) s' slot e (first :: rest)
              Hfind Hentry Hc Hnd)
    as (s'' & Hdel & _ & Hget & Hdir & Hreg & _ & _ & _).
  assert (Hfat : FAT s'' = FAT s).
  { apply vget_ext. intros j. rewrite Hget.
    destruct (existsb (Z.eqb j) (first :: rest)) eqn:Hex.
    - apply existsb_exists in Hex as (y & Hy & Hjy). apply Z.eqb_eq in Hjy. subst y.
      symmetry. exact (proj2 (Hin j Hy)).
    - apply Hframe. intros Hj. assert (existsb (Z.eqb j) (first :: rest) = true)
        by (apply existsb_exists; exists j; split; [exact Hj | apply Z.eqb_refl]).
      congruence. }
  exists s''. split; [exact Hdel |]. split; [exact Hfat |].
  split; [rewrite Hreg; exact Hfat |].
  apply nth_error_ext. intros k. rewrite !nth_error_map, Hdir.
  destruct (Nat.eqb_spec k slot) as [-> | Hk].
  - rewrite Hslot. simpl. rewrite Hempty. reflexivity.
  - rewrite (Hother k Hk). reflexivity.
Qed.

(** ** Base names and exports *)

(** The name [copyFromHost] stores comes from [basename]: it never
    contains a '/' or a '\', it is a suffix of the host path, and a path
    without a separator is its own base name. *)
Theorem basename_strips_directories :
  forall p,
    has_sep (basename p) = false /\
    (exists pre, p = pre ++ basename p) /\
    (has_sep p = false -> basename p = p).
Proof.
  induction p as [| c r IH]; simpl.
  - split; [reflexivity |]. split; [exists ""; reflexivity | reflexivity].
  - destruct IH as (IHsep & (pre & IHpre) & IHid).
    destruct (has_sep r) eqn:Hr.
    + split; [exact IHsep |]. split.
      * exists (String c pre). simpl. rewrite <- IHpre. reflexivity.
      * rewrite orb_true_r. discriminate.
    + destruct (is_sep c) eqn:Hc; simpl.
      * split; [exact Hr |]. split; [exists (String c ""); reflexivity | discriminate].
      * rewrite Hc, Hr. split; [reflexivity |].
        split; [exists ""; reflexivity | reflexivity].
Qed.

Lemma copyToHost_loop_out_length :
  forall fuel fat readBlock blk rem out iters out' k,
    0 <= rem ->
    copyToHost_loop fuel fat readBlock blk rem out iters = LoopDone out' k ->
    (List.length out' <= List.length out + Z.to_nat rem)%nat.
Proof.
  induction fuel as [| fuel IH]; intros fat readBlock blk rem out iters out' k Hr H;
    simpl in H.
  - destruct (negb (blk =? FAT_EOF) && (0 <? rem)); [discriminate |].
    injection H as <- _. lia.
  - destruct (negb (blk =? FAT_EOF) && (0 <? rem)); [| injection H as <- _; lia].
    set (out2 := (out ++ firstn (Z.to_nat (Z.min BLOCK_SIZE rem)) (readBlock blk))%list) in H.
    assert (Hl2 : (List.length out2 <= List.length out + Z.to_nat (Z.min BLOCK_SIZE rem))%nat).
    { subst out2. rewrite length_app, length_firstn. lia. }
    assert (Hr' : 0 <= rem - Z.min BLOCK_SIZE rem) by (unfold BLOCK_SIZE; lia).
    destruct (blk <? 0).
    + pose proof (IH _ _ _ _ _ _ _ _ Hr' H). unfold BLOCK_SIZE in *. lia.
    + destruct (vget fat blk); [| discriminate].
      pose proof (IH _ _ _ _ _ _ _ _ Hr' H). unfold BLOCK_SIZE in *. lia.
Qed.

(** Whatever the FAT and the data blocks contain, a successful
    [copyToHost name] exports the first active entry called [name] and
    writes at most its recorded size in bytes. *)
Theorem copyToHost_output_bounded :
  forall nm s out,
    copyToHost nm s = Some (true, out) ->
    exists e, vget (directory s) (findDirectoryEntry (directory s) nm) = Some e /\
      name e = nm /\ Z.of_nat (List.length out) <= Z.max 0 (size e).
Proof.
  intros nm s out H. unfold copyToHost in H.
  destruct (Z.ltb_spec (findDirectoryEntry (directory s) nm) 0) as [_ | Hidx];
    [discriminate |].
  destruct (vget (directory s) (findDirectoryEntry (directory s) nm)) as [e |] eqn:He;
    [| discriminate].
  exists e. split; [reflexivity |]. split.
  - destruct (findDirectoryEntry_first_active_match (directory s) nm)
      as [[Hr _] | (i & e' & Hi & Hnth & Hn & _)]; [lia |].
    rewrite Hi in He. unfold vget in He.
    destruct (Z.ltb_spec (Z.of_nat i) 0); [lia |].
    rewrite Nat2Z.id, Hnth in He. injection He as <-. exact Hn.
  - destruct (copyToHost_loop _ _ _ _ _ _ _) as [out' k | k |] eqn:Hl; try discriminate.
    injection H as <-.
    destruct (Z.le_gt_cases (size e) 0) as [Hneg | Hpos].
    + destruct (Z.to_nat (blocks_for (size e))) eqn:Hf; simpl in Hl;
        destruct (Z.ltb_spec 0 (size e)); try lia;
        rewrite andb_false_r in Hl; injection Hl as <- _; simpl; lia.
    + assert (H0 : 0 <= size e) by lia.
      pose proof (copyToHost_loop_out_length _ _ _ _ _ _ _ _ _ H0 Hl).
      simpl in *. lia.
Qed.

(** ** The block map of a new volume *)

Lemma showMap_loop_run (s : VFS) :
  forall m n i start curr,
    (forall j, i <= j < i + Z.of_nat m -> describe_block s j = Some curr) ->
    showMap_loop s (m + n) i start curr = showMap_loop s n (i + Z.of_nat m) start curr.
Proof.
  induction m as [| m IH]; intros n i start curr Hd.
  - rewrite Z.add_0_r. reflexivity.
  - simpl plus. cbn [showMap_loop]. rewrite (Hd i ltac:(lia)), !String.eqb_refl.
    simpl andb. rewrite IH.
    + f_equal. lia.
    + intros j Hj. apply Hd. lia.
Qed.

Lemma showMap_loop_change (s : VFS) n i start curr d :
  describe_block s i = Some d ->
  String.eqb (fst d) (fst curr) && String.eqb (snd d) (snd curr) = false ->
  showMap_loop s (S n) i start curr =
  match showMap_loop s n (i + 1) i d with
  | Some rest => Some ((start, i - 1, curr) :: rest)
  | None => None
  end.
Proof. intros Hd Hne. cbn [showMap_loop]. rewrite Hd, Hne. reflexivity. Qed.

Lemma describe_block_fresh (v : VFS) :
  dirStartBlock (sb v) = 1 -> dirBlockCount (sb v) = 7 -> fatStartBlock (sb v) = 8 ->
  dataStartBlock (sb v) = fatStartBlock (sb v) + fatBlockCount (sb v) ->
  0 <= fatBlockCount (sb v) -> dataStartBlock (sb v) < 2 ^ 32 ->
  FAT v = (repeat FAT_RESERVED (Z.to_nat (dataStartBlock (sb v))) ++
           repeat FAT_FREE (Z.to_nat (totalBlocks (sb v)) -
                            Z.to_nat (dataStartBlock (sb v))))%list ->
  forall j, 0 <= j < totalBlocks (sb v) ->
    describe_block v j =
    Some (if j =? 0 then ("Superblock", "occupied")
          else if j <? 8 then ("Directory", "occupied")
          else if j <? dataStartBlock (sb v) then ("FAT", "occupied")
          else ("Free", "free")).
Proof.
  intros H1 H7 H8 Hds Hf0 Hd32 Hfat j Hj. unfold describe_block.
  rewrite H1, H7, H8. rewrite H8 in Hds.
  change (u32 (1 + 7)) with (1 + 7).
  rewrite (u32_small (8 + fatBlockCount (sb v))) by lia.
  destruct (Z.eqb_spec j 0) as [-> | Hj0]; [reflexivity |].
  destruct (Z.ltb_spec j 8) as [Hlt | Hge].
  - replace ((1 <=? j) && (j <? 1 + 7)) with true by (symmetry; apply andb_true_intro; split; [apply Z.leb_le | apply Z.ltb_lt]; lia).
    reflexivity.
  - replace ((1 <=? j) && (j <? 1 + 7)) with false
      by (symmetry; apply andb_false_intro2; apply Z.ltb_ge; lia).
    destruct (Z.ltb_spec j (dataStartBlock (sb v))) as [Hlt | Hge2].
    + replace ((8 <=? j) && (j <? 8 + fatBlockCount (sb v))) with true
        by (symmetry; apply andb_true_intro; split; [apply Z.leb_le | apply Z.ltb_lt]; lia).
      reflexivity.
    + replace ((8 <=? j) && (j <? 8 + fatBlockCount (sb v))) with false
        by (symmetry; apply andb_false_intro2; apply Z.ltb_ge; lia).
      assert (Hv : vget (FAT v) j = Some FAT_FREE).
      { unfold vget. destruct (Z.ltb_spec j 0); [lia |]. rewrite Hfat.
        rewrite nth_error_app2 by (rewrite repeat_length; lia).
        rewrite repeat_length. apply nth_error_repeat. lia. }
      rewrite Hv. reflexivity.
Qed.

(** The block map ([dmap]) of a volume [createDisk] has just formatted
    shows the superblock (block 0), the directory (blocks 1-7), the FAT
    (from block 8 up to the first data block) and, when the volume has
    data blocks, one range of free blocks up to the last block. *)
Theorem showMap_fresh_volume :
  forall d v, 0 <= d < 2 ^ 32 -> createDisk d = Some v ->
    let T := totalBlocks (sb v) in
    let ds := dataStartBlock (sb v) in
    showMap v =
    Some ([(0, 0, ("Superblock", "occupied"));
           (1, 7, ("Directory", "occupied"));
           (8, ds - 1, ("FAT", "occupied"))] ++
          (if ds <? T then [(ds, T - 1, ("Free", "free"))] else []))%list.
Proof.
  intros d v Hd Hc. cbv zeta.
  destruct (createDisk_fresh_layout d v Hd Hc)
    as (HT & H1 & H7 & H8 & Hfb & Hds & Hle & Hfat & _).
  pose proof (adjust_disk_size_range d Hd) as Ha.
  assert (HT0 : 0 <= totalBlocks (sb v))
    by (rewrite HT; apply Z.div_pos; unfold BLOCK_SIZE; lia).
  assert (HT1 : totalBlocks (sb v) < 2 ^ 32).
  { rewrite HT. unfold BLOCK_SIZE.
    pose proof (div_512_bounds (adjust_disk_size d)). lia. }
  set (T := totalBlocks (sb v)) in *. set (ds := dataStartBlock (sb v)) in *.
  assert (Hq : 1 <= (4 * T + 511) / 512).
  { pose proof (div_512_bounds (4 * T + 511)). lia. }
  assert (Hdsf : ds = fatStartBlock (sb v) + fatBlockCount (sb v)) by lia.
  pose proof (describe_block_fresh v H1 H7 H8 Hdsf ltac:(lia) ltac:(lia) Hfat) as Hdesc.
  fold T ds in Hdesc.
  assert (HT9 : 9 <= ds <= T) by lia.
  unfold showMap. fold T.
  rewrite (Hdesc 0 ltac:(lia)). simpl (0 =? 0).
  assert (Hsplit : Z.to_nat (T - 1) =
                   S (6 + S (Z.to_nat (ds - 9) + Z.to_nat (T - ds))))
    by lia.
  rewrite Hsplit.
  rewrite (showMap_loop_change v _ 1 0 _ ("Directory", "occupied"))
    by first [rewrite (Hdesc 1 ltac:(lia)); reflexivity | reflexivity].
  rewrite (showMap_loop_run v 6 _ (1 + 1) 1 ("Directory", "occupied")).
  2:{ intros j Hj. rewrite (Hdesc j ltac:(lia)).
      destruct (Z.eqb_spec j 0); [lia |]. destruct (Z.ltb_spec j 8); [reflexivity | lia]. }
  replace (1 + 1 + Z.of_nat 6) with 8 by reflexivity.
  rewrite (showMap_loop_change v _ 8 1 _ ("FAT", "occupied"))
    by first [rewrite (Hdesc 8 ltac:(lia)); simpl;
              destruct (Z.ltb_spec 8 ds); [reflexivity | lia]
             | reflexivity].
  rewrite (showMap_loop_run v (Z.to_nat (ds - 9)) _ (8 + 1) 8 ("FAT", "occupied")).
  2:{ intros j Hj. rewrite (Hdesc j ltac:(lia)).
      destruct (Z.eqb_spec j 0); [lia |]. destruct (Z.ltb_spec j 8); [lia |].
      destruct (Z.ltb_spec j ds); [reflexivity | lia]. }
  replace (8 + 1 + Z.of_nat (Z.to_nat (ds - 9))) with ds by lia.
  destruct (Z.ltb_spec ds T) as [Hlt | Hge].
  - replace (Z.to_nat (T - ds)) with (S (Z.to_nat (T - ds - 1) + 0)) by lia.
    rewrite (showMap_loop_change v _ ds 8 _ ("Free", "free"))
      by first [rewrite (Hdesc ds ltac:(lia));
                destruct (Z.eqb_spec ds 0); [lia |]; destruct (Z.ltb_spec ds 8); [lia |];
                destruct (Z.ltb_spec ds ds); [lia | reflexivity]
               | reflexivity].
    rewrite (showMap_loop_run v (Z.to_nat (T - ds - 1)) 0 (ds + 1) ds ("Free", "free")).
    2:{ intros j Hj. rewrite (Hdesc j ltac:(lia)).
        destruct (Z.eqb_spec j 0); [lia |]. destruct (Z.ltb_spec j 8); [lia |].
        destruct (Z.ltb_spec j ds); [lia | reflexivity]. }
    cbn [showMap_loop]. fold T. rewrite u32_small by lia.
    replace (1 - 1) with 0 by reflexivity. replace (8 - 1) with 7 by reflexivity.
    reflexivity.
  - replace (Z.to_nat (T - ds)) with O by lia.
    cbn [showMap_loop]. fold T. rewrite u32_small by lia.
    replace T with ds by lia.
    reflexivity.
Qed.

(** ** The theorems above at concrete inputs *)

Lemma findFreeBlocks_lowest_free_witness :
  totalBlocks (sb vol11) <= 2 ^ 31 /\
  findFreeBlocks (sb vol11) (FAT vol11) 3 = Some (false, [9; 10]) /\
  (false = (Z.of_nat (List.length [9; 10]) =? 3) /\
   Z.of_nat (List.length [9; 10]) <= 3 /\
   StronglySorted Z.lt [9; 10] /\
   (forall y, In y [9; 10] ->
      dataStartBlock (sb vol11) <= y < totalBlocks (sb vol11) /\
      vget (FAT vol11) y = Some FAT_FREE) /\
   (forall x, dataStartBlock (sb vol11) <= x < totalBlocks (sb vol11) ->
      vget (FAT vol11) x = Some FAT_FREE -> ~ In x [9; 10] ->
      false = true /\ Forall (fun y => y < x) [9; 10])).
Proof.
  assert (HT : totalBlocks (sb vol11) <= 2 ^ 31) by (vm_compute; discriminate).
  split; [exact HT |]. split; [vm_compute; reflexivity |].
  apply (findFreeBlocks_lowest_free (sb vol11) (FAT vol11) 3 false [9; 10]);
    [lia | exact HT | vm_compute; reflexivity].
Defined.

Lemma link_chain_walks_back_witness :
  NoDup [9; 10] /\
  link_chain (FAT vol11) [9; 10] = Some (repeat FAT_RESERVED 9 ++ [10; FAT_EOF])%list /\
  ((forall fuel, (List.length [10] < fuel)%nat ->
      chain_blocks fuel (repeat FAT_RESERVED 9 ++ [10; FAT_EOF])%list 9 = Some [9; 10]) /\
   List.length (repeat FAT_RESERVED 9 ++ [10; FAT_EOF])%list = List.length (FAT vol11) /\
   (forall j, ~ In j [9; 10] ->
      vget (repeat FAT_RESERVED 9 ++ [10; FAT_EOF])%list j = vget (FAT vol11) j)).
Proof.
  assert (Hnd : NoDup [9; 10]).
  { constructor; [simpl; lia | constructor; [simpl; lia | constructor]]. }
  split; [exact Hnd |].
  split; [vm_compute; reflexivity |].
  apply (link_chain_walks_back (FAT vol11) 9 [10]); [exact Hnd | vm_compute; reflexivity].
Defined.

Lemma adjust_disk_size_rounds_up_witness :
  0 <= 1000 < 2 ^ 32 /\
  ((1000 = 0 -> adjust_disk_size 1000 = DEFAULT_DISK_SIZE) /\
   (0 < 1000 <= 2 ^ 32 - 512 ->
      adjust_disk_size 1000 mod BLOCK_SIZE = 0 /\
      1000 <= adjust_disk_size 1000 < 1000 + BLOCK_SIZE) /\
   (2 ^ 32 - 512 < 1000 -> adjust_disk_size 1000 = 0)).
Proof.
  split; [lia |]. apply (adjust_disk_size_rounds_up 1000). lia.
Defined.

Lemma createDisk_undefined_iff_witness :
  0 <= 4096 < 2 ^ 32 /\ createDisk 4096 = None /\
  (createDisk 4096 = None <-> 0 < 4096 <= 4096 \/ 2 ^ 32 - 512 < 4096).
Proof.
  split; [lia |]. split; [vm_compute; reflexivity |].
  apply (createDisk_undefined_iff 4096). lia.
Defined.

Lemma createDisk_fresh_layout_witness :
  0 <= 5632 < 2 ^ 32 /\ createDisk 5632 = Some vol11 /\
  (let T := totalBlocks (sb vol11) in
   let ds := dataStartBlock (sb vol11) in
   T = adjust_disk_size 5632 / BLOCK_SIZE /\
   dirStartBlock (sb vol11) = 1 /\ dirBlockCount (sb vol11) = 7 /\
   fatStartBlock (sb vol11) = 8 /\ fatBlockCount (sb vol11) = (4 * T + 511) / 512 /\
   ds = 8 + (4 * T + 511) / 512 /\ ds <= T /\
   FAT vol11 = (repeat FAT_RESERVED (Z.to_nat ds) ++
                repeat FAT_FREE (Z.to_nat T - Z.to_nat ds))%list /\
   directory vol11 = repeat zero_entry (Z.to_nat MAX_FILES) /\
   loadDisk true vol11 = Loaded vol11).
Proof.
  split; [lia |]. split; [vm_compute; reflexivity |].
  apply (createDisk_fresh_layout 5632 vol11); [lia | vm_compute; reflexivity].
Defined.

Lemma deleteFile_frees_exact_chain_witness :
  standard_layout (sb vol11_imported) = true /\
  findDirectoryEntry (directory vol11_imported) "notes.txt" = Z.of_nat 0 /\
  nth_error (directory vol11_imported) 0 = Some notes_entry /\
  entry_chain vol11_imported notes_entry = Some [9] /\ NoDup [9] /\
  exists s', deleteFile "notes.txt" vol11_imported = Some (true, s') /\
    List.length (FAT s') = List.length (FAT vol11_imported) /\
    (forall j, vget (FAT s') j =
               if existsb (Z.eqb j) [9] then Some FAT_FREE else vget (FAT vol11_imported) j) /\
    (forall k, nth_error (directory s') k =
               if Nat.eqb k 0
               then Some (mkDirEntry "" 0 (created notes_entry) (type notes_entry) 0)
               else nth_error (directory vol11_imported) k) /\
    fatRegion s' = FAT s' /\ dirRegion s' = directory s' /\
    sb s' = sb vol11_imported /\
    (forall k, dataStartBlock (sb vol11_imported) <= k ->
       dataBlocks s' k = dataBlocks vol11_imported k).
Proof.
  assert (Hnd : NoDup [9]) by (constructor; [simpl; lia | constructor]).
  split; [vm_compute; reflexivity |].
  split; [vm_compute; reflexivity |]. split; [vm_compute; reflexivity |].
  split; [vm_compute; reflexivity |]. split; [exact Hnd |].
  apply (deleteFile_frees_exact_chain "notes.txt" vol11_imported 0 notes_entry [9]);
    [vm_compute; reflexivity | vm_compute; reflexivity | vm_compute; reflexivity |
     vm_compute; reflexivity | exact Hnd].
Defined.

Lemma import_export_round_trip_witness :
  copyFromHost NOTES_PATH (Some notes_file) 0 vol11 = Some (true, vol11_imported) /\
  basename NOTES_PATH <> "" /\ (String.length (basename NOTES_PATH) <= 31)%nat /\
  hsize notes_file <= (2 ^ 32 - 1) * BLOCK_SIZE /\ standard_layout (sb vol11) = true /\
  copyToHost (basename NOTES_PATH) vol11_imported =
  Some (true, map (fun j => hbyte notes_file (Z.of_nat j))
                  (seq 0 (Z.to_nat (hsize notes_file)))).
Proof.
  assert (H : copyFromHost NOTES_PATH (Some notes_file) 0 vol11 = Some (true, vol11_imported))
    by (vm_compute; reflexivity).
  assert (Hne : basename NOTES_PATH <> "") by (vm_compute; discriminate).
  split; [exact H |]. split; [exact Hne |].
  split; [vm_compute; lia |]. split; [vm_compute; discriminate |].
  split; [vm_compute; reflexivity |].
  apply (import_export_round_trip NOTES_PATH notes_file 0 vol11 vol11_imported H Hne);
    vm_compute; [lia | discriminate | reflexivity].
Defined.

Lemma copyFromHost_footprint_witness :
  copyFromHost NOTES_PATH (Some notes_file) 0 vol11 = Some (true, vol11_imported) /\
  hsize notes_file <= (2 ^ 32 - 1) * BLOCK_SIZE /\ standard_layout (sb vol11) = true /\
  exists blocks slot e,
    findFreeSlot (directory vol11) = Z.of_nat slot /\
    nth_error (directory vol11) slot = Some e /\ name e = "" /\
    (forall j e', (j < slot)%nat -> nth_error (directory vol11) j = Some e' -> name e' <> "") /\
    Z.of_nat (List.length blocks) = blocks_for (hsize notes_file) /\
    StronglySorted Z.lt blocks /\
    (forall y, In y blocks ->
       dataStartBlock (sb vol11) <= y < totalBlocks (sb vol11) /\
       vget (FAT vol11) y = Some FAT_FREE) /\
    (forall x, dataStartBlock (sb vol11) <= x < totalBlocks (sb vol11) ->
       vget (FAT vol11) x = Some FAT_FREE -> ~ In x blocks -> Forall (fun y => y < x) blocks) /\
    (forall j, ~ In j blocks -> vget (FAT vol11_imported) j = vget (FAT vol11) j) /\
    (forall j, dataStartBlock (sb vol11) <= j -> ~ In j blocks ->
       dataBlocks vol11_imported j = dataBlocks vol11 j) /\
    (forall k, k <> slot ->
       nth_error (directory vol11_imported) k = nth_error (directory vol11) k) /\
    sb vol11_imported = sb vol11 /\ fatRegion vol11_imported = FAT vol11_imported /\
    dirRegion vol11_imported = directory vol11_imported.
Proof.
  assert (H : copyFromHost NOTES_PATH (Some notes_file) 0 vol11 = Some (true, vol11_imported))
    by (vm_compute; reflexivity).
  split; [exact H |]. split; [vm_compute; discriminate |].
  split; [vm_compute; reflexivity |].
  apply (copyFromHost_footprint NOTES_PATH notes_file 0 vol11 vol11_imported H);
    vm_compute; [discriminate | reflexivity].
Defined.

Lemma import_then_delete_restores_fat_witness :
  copyFromHost NOTES_PATH (Some notes_file) 0 vol11 = Some (true, vol11_imported) /\
  basename NOTES_PATH <> "" /\ (String.length (basename NOTES_PATH) <= 31)%nat /\
  hsize notes_file <= (2 ^ 32 - 1) * BLOCK_SIZE /\ totalBlocks (sb vol11) <= 2 ^ 31 /\
  exists s'', deleteFile (basename NOTES_PATH) vol11_imported = Some (true, s'') /\
    FAT s'' = FAT vol11 /\ fatRegion s'' = FAT vol11 /\
    map name (directory s'') = map name (directory vol11).
Proof.
  assert (H : copyFromHost NOTES_PATH (Some notes_file) 0 vol11 = Some (true, vol11_imported))
    by (vm_compute; reflexivity).
  assert (Hne : basename NOTES_PATH <> "") by (vm_compute; discriminate).
  split; [exact H |]. split; [exact Hne |].
  split; [vm_compute; lia |]. split; [vm_compute; discriminate |].
  split; [vm_compute; discriminate |].
  apply (import_then_delete_restores_fat NOTES_PATH notes_file 0 vol11 vol11_imported H Hne);
    vm_compute; [lia | discriminate | discriminate].
Defined.

Lemma copyToHost_output_bounded_witness :
  copyToHost "notes.txt" vol11_imported = Some (true, [Byte.x68; Byte.x69]) /\
  exists e, vget (directory vol11_imported)
              (findDirectoryEntry (directory vol11_imported) "notes.txt") = Some e /\
    name e = "notes.txt" /\
    Z.of_nat (List.length [Byte.x68; Byte.x69]) <= Z.max 0 (size e).
Proof.
  assert (H : copyToHost "notes.txt" vol11_imported = Some (true, [Byte.x68; Byte.x69]))
    by (vm_compute; reflexivity).
  split; [exact H |].
  exact (copyToHost_output_bounded "notes.txt" vol11_imported _ H).
Defined.

Lemma showMap_fresh_volume_witness :
  0 <= 5632 < 2 ^ 32 /\ createDisk 5632 = Some vol11 /\
  (let T := totalBlocks (sb vol11) in
   let ds := dataStartBlock (sb vol11) in
   showMap vol11 =
   Some ([(0, 0, ("Superblock", "occupied"));
          (1, 7, ("Directory", "occupied"));
          (8, ds - 1, ("FAT", "occupied"))] ++
         (if ds <? T then [(ds, T - 1, ("Free", "free"))] else []))%list).
Proof.
  split; [lia |]. split; [vm_compute; reflexivity |].
  apply (showMap_fresh_volume 5632 vol11); [lia | vm_compute; reflexivity].
Defined.

End Extras.
